(** * Splunk driver: a shallow embedding of
    [msticpy/data/drivers/splunk_driver.py] and the properties of its
    connection manager, query executor, accessors and formatters.

    Python values are embedded as [pyval]; dictionaries keyed by strings as
    [gmap string pyval]; the class-level attribute [_CONNECT_DEFAULTS] is an
    explicit store threaded through [connect], because the method updates it
    in place; [print] is an explicit output log; a raised exception is the
    [Raise] case of a result.

    Strings are sequences of bytes.  Case folding, whitespace and digits are
    the ASCII ones; bytes above 127 are left alone by [casefold], are never
    whitespace and never digits. *)

From Stdlib Require Import ZArith Ascii String List.
From stdpp Require Import gmap strings list pretty.

Local Open Scope string_scope.
Local Open Scope Z_scope.

(** ** Python values *)

Inductive pyval : Type :=
| VNone
| VBool (b : bool)
| VInt (n : Z)
| VStr (s : string).

#[global] Instance pyval_eq_dec : EqDecision pyval.
Proof. solve_decision. Defined.

(** The double quote character, code 34. *)
Definition dquote : ascii := Eval cbv in ascii_of_nat 34.

(** ** Exceptions and results *)

Inductive exn : Type :=
| MsticpyUserError (args : list string) (title : string)
| MsticpyConnectionError (args : list string) (title : string)
| MsticpyNotConnectedError (args : list string) (title help_uri : string)
| ConnectionError (args : list string)   (* the Python builtin *)
| NameError (args : list string)
| IndexError
| KeyError (key : string)
| ValueError
| TypeError
| AttributeError.                        (* attribute access on [None] *)

Inductive result (A : Type) : Type :=
| Ok (a : A)
| Raise (e : exn).
Arguments Ok {A} a.
Arguments Raise {A} e.

(** Sequencing: the first exception raised ends the computation. *)
#[global] Instance result_bind : MBind result := fun A B k r =>
  match r with
  | Ok a => k a
  | Raise e => Raise e
  end.

(** ** Primitives of the Python runtime *)

Module Py.

(** [str(v)], which is also what an f-string replacement field yields. *)
Definition str (v : pyval) : string :=
  match v with
  | VNone => "None"
  | VBool true => "True"
  | VBool false => "False"
  | VInt n => pretty n
  | VStr s => s
  end.

(** [sep.join(l)] *)
Fixpoint join (sep : string) (l : list string) : string :=
  match l with
  | [] => ""
  | [x] => x
  | x :: rest => x ++ sep ++ join sep rest
  end.

(** [s.split(sep)] for a one-character separator: never the empty list. *)
Fixpoint split (sep : ascii) (s : string) : list string :=
  match s with
  | EmptyString => [""]
  | String c s' =>
      if Ascii.eqb c sep then "" :: split sep s'
      else match split sep s' with
           | p :: ps => String c p :: ps
           | [] => [String c ""]
           end
  end.

(** Whitespace as [str.isspace] sees it in the ASCII range:
    tab, LF, VT, FF, CR, the four separators 28..31 and the space. *)
Definition isspace (c : ascii) : bool :=
  let n := nat_of_ascii c in
  ((9 <=? n) && (n <=? 13) || (28 <=? n) && (n <=? 32))%nat.

Fixpoint lstrip (s : string) : string :=
  match s with
  | EmptyString => ""
  | String c s' => if isspace c then lstrip s' else s
  end.

Fixpoint rstrip (s : string) : string :=
  match s with
  | EmptyString => ""
  | String c s' =>
      match rstrip s' with
      | EmptyString => if isspace c then "" else String c ""
      | r => String c r
      end
  end.

(** [s.strip()] *)
Definition strip (s : string) : string := rstrip (lstrip s).

Definition lower_char (c : ascii) : ascii :=
  let n := nat_of_ascii c in
  if ((65 <=? n) && (n <=? 90))%nat then ascii_of_nat (n + 32) else c.

(** [s.casefold()] *)
Fixpoint casefold (s : string) : string :=
  match s with
  | EmptyString => ""
  | String c s' => String (lower_char c) (casefold s')
  end.

(** [needle in hay] on strings: substring test. *)
Fixpoint contains (needle hay : string) : bool :=
  String.prefix needle hay ||
  match hay with
  | EmptyString => false
  | String _ hay' => contains needle hay'
  end.

Definition digit_val (c : ascii) : option Z :=
  let n := nat_of_ascii c in
  if ((48 <=? n) && (n <=? 57))%nat then Some (Z.of_nat n - 48) else None.

(** Digits of an integer literal: single underscores may separate digits.
    [acc] is the value read so far, [after_digit] says whether the previous
    character was a digit. *)
Fixpoint digits (acc : Z) (after_digit : bool) (s : string) : option Z :=
  match s with
  | EmptyString => if after_digit then Some acc else None
  | String c s' =>
      match digit_val c with
      | Some d => digits (10 * acc + d) true s'
      | None =>
          if Ascii.eqb c "_" && after_digit then digits acc false s'
          else None
      end
  end.

(** [int(s)] for a string, base 10: surrounding whitespace, one optional
    sign, then digits.  [None] stands for [ValueError]. *)
Definition int_of_str (s : string) : option Z :=
  match strip s with
  | String "-" r => Z.opp <$> digits 0 false r
  | String "+" r => digits 0 false r
  | r => digits 0 false r
  end.

(** [l[i]] on a list *)
Definition index {A} (l : list A) (i : nat) : result A :=
  match l !! i with
  | Some x => Ok x
  | None => Raise IndexError
  end.

(** [int(v)] *)
Definition int (v : pyval) : result Z :=
  match v with
  | VInt n => Ok n
  | VBool b => Ok (if b then 1 else 0)
  | VStr s => match int_of_str s with
              | Some n => Ok n
              | None => Raise ValueError
              end
  | VNone => Raise TypeError
  end.

(** [d[key]] on a dictionary *)
Definition getitem (d : gmap string pyval) (key : string) : result pyval :=
  match d !! key with
  | Some v => Ok v
  | None => Raise (KeyError key)
  end.

End Py.

(** [c in s] for a single character. *)
Fixpoint occurs (c : ascii) (s : string) : bool :=
  match s with
  | EmptyString => false
  | String d s' => Ascii.eqb d c || occurs c s'
  end.

(** A key or value free of both separators of the connection string. *)
Definition plain (s : string) : bool :=
  negb (occurs ";" s) && negb (occurs "=" s).

(** ** Formatters *)

(** [_format_list]: each item inside double quotes, joined by commas. *)
Definition quoted (item : pyval) : string :=
  String dquote (Py.str item ++ String dquote "").

Definition _format_list (param_list : list pyval) : string :=
  let fmt_list := map quoted param_list in
  Py.join "," fmt_list.

(** Total length of the quoted items, two quotes each. *)
Fixpoint quoted_length (l : list pyval) : nat :=
  match l with
  | [] => 0
  | x :: rest => (String.length (Py.str x) + 2 + quoted_length rest)%nat
  end.

(** ** The vendor client library (outside this module) *)

(** A record as the results reader yields it. *)
Definition row : Type := list (string * string).

Record SavedSearch := { ss_name : string; ss_search : string }.
Record FiredAlert := { fa_name : string; fa_count : Z }.

(** A session that answers: the records a one-shot search yields and the two
    collections, as data.  A search or an enumeration that fails inside the
    vendor library is not modelled; what is proved of [query] and of the
    accessors is about the calls the session answers. *)
Record Service := {
  oneshot : string -> list row;          (* [jobs.oneshot] read to the end *)
  saved_searches : list SavedSearch;
  fired_alerts : list FiredAlert
}.

(** What [client.connect] can do with the keyword arguments it is given:
    return a session, or raise one of the two errors [connect] catches.  Any
    other exception of the vendor library would pass through [connect]
    unchanged and is not modelled; the theorems below that speak of a failed
    factory call say so without naming these two cases. *)
Inductive connect_outcome : Type :=
| Connected (svc : Service)
| AuthenticationError (err : string)
| HTTPError (err : string).

(** ** Module constants *)

Definition SPLUNK_CONNECT_ARGS : list (string * string) :=
  [ ("host", "(string) The host name (the default is 'localhost').");
    ("port", "(integer) The port number (the default is 8089).");
    ("scheme", "('https' or 'http') The scheme for accessing the service "
               ++ "(the default is 'https').");
    ("verify", "(Boolean) Enable (True) or disable (False) SSL verrification for "
               ++ "https connections. (optional, the default is True)");
    ("owner", "(string) The owner context of the namespace (optional).");
    ("app", "(string) The app context of the namespace (optional).");
    ("sharing", "('global', 'system', 'app', or 'user') "
                ++ "The sharing mode for the namespace (the default is 'user').");
    ("token", "(string) The current session token (optional). Session tokens can be"
              ++ " shared across multiple service instances.");
    ("cookie", "(string) A session cookie. When provided, you don’t need to call"
               ++ " login(). This parameter is only supported for Splunk 6.2+.");
    ("autologin", "(boolean) When True, automatically tries to log in again if"
                  ++ " the session terminates.");
    ("username", "(string) The Splunk account username, which is used to "
                 ++ "authenticate the Splunk instance.");
    ("password", "(string) The password for the Splunk account.") ].

(** The initial value of the class attribute [SplunkDriver._CONNECT_DEFAULTS]. *)
Definition _CONNECT_DEFAULTS : gmap string pyval :=
  <["port" := VInt 8089]> (<["http_scheme" := VStr "https"]> (<["verify" := VBool false]> ∅)).

Definition required_args : list string := ["host"; "username"; "password"].

(** ** The driver object *)

Record SplunkDriver := {
  service : option Service;
  _loaded : bool;
  _connected : bool;
  _debug : pyval
}.

(** Modelled from the spec: the [connected] property of [DriverBase], which
    is not part of this module; the driver is connected when [connect] has
    marked it so. *)
Definition connected (self : SplunkDriver) : bool := _connected self.

(** Modelled from the spec: [check_kwargs] of [common.utility], which is not
    part of this module.  It validates that the required keys are present
    and fails naming the missing keys if not; [connect] catches a
    [NameError]. *)
Definition check_kwargs (cs_dict : gmap string pyval) (required : list string)
  : result unit :=
  match filter (fun k => cs_dict !! k = None) required with
  | [] => Ok tt
  | missing => Raise (NameError missing)
  end.

(** ** connect *)

(** Truth value of the [connection_str] argument. *)
Definition str_truthy (connection_str : option string) : option string :=
  match connection_str with
  | Some (String c s) => Some (String c s)
  | _ => None
  end.

(** One [key: value] of the dictionary comprehension. *)
Definition cs_pair (cs_item : string) : result (string * pyval) :=
  k ← Py.index (Py.split "=" cs_item) 0;
  v ← Py.index (Py.split "=" cs_item) 1;
  Ok (Py.strip k, VStr v).

(** The comprehension over [cs_items]: a later key overrides an earlier one. *)
Fixpoint cs_comprehension (cs_items : list string) (acc : gmap string pyval)
  : result (gmap string pyval) :=
  match cs_items with
  | [] => Ok acc
  | cs_item :: rest =>
      kv ← cs_pair cs_item;
      cs_comprehension rest (<[kv.1 := kv.2]> acc)
  end.

Definition parse_connection_str (connection_str : string)
  : result (gmap string pyval) :=
  cs_comprehension (Py.split ";" connection_str) ∅.

Definition no_params_error : exn :=
  MsticpyUserError
    ([ "No connection details provided for Splunk connector";
       "Required parameters are " ++ Py.join ", " required_args;
       "All parameters:" ]
     ++ map (fun ad => ad.1 ++ ": " ++ ad.2) SPLUNK_CONNECT_ARGS)
    "no Splunk connection parameters".

(** The values one call supplies: the argument of [cs_dict.update]. *)
Definition supplied (connection_str : option string) (kwargs : gmap string pyval)
  : result (gmap string pyval) :=
  match str_truthy connection_str with
  | Some cs => parse_connection_str cs
  | None =>
      if decide (kwargs = ∅) then Raise no_params_error else Ok kwargs
  end.

(** The coercion of [verify]. *)
Definition coerce_verify (verify_opt : option pyval) : bool :=
  match verify_opt with
  | Some (VStr s) => Py.contains "true" (Py.casefold s)
  | Some (VBool b) => b
  | _ => false
  end.

(** What a call of [connect] leaves behind: the class-level dictionary, the
    driver, the outcome and what the [print] calls of this module wrote.
    What the exception classes of the package display when they are built
    is outside this module and is not part of [stdout]. *)
Record connect_result := {
  class_defaults : gmap string pyval;
  driver : SplunkDriver;
  outcome : result unit;
  stdout : list string
}.

Definition recognized (k : string) : Prop := k ∈ SPLUNK_CONNECT_ARGS.*1.

#[global] Instance recognized_dec k : Decision (recognized k).
Proof. unfold recognized. apply _. Defined.

(** The keyword arguments handed to the session factory. *)
Definition arg_dict_of (cs_dict : gmap string pyval) : gmap string pyval :=
  filter (fun kv => recognized kv.1) cs_dict.

(** Lines 101-108: [port] becomes an integer, [verify] a boolean. *)
Definition coerce_params (cs_dict : gmap string pyval)
  : result (gmap string pyval) :=
  port ← Py.getitem cs_dict "port";
  p ← Py.int port;
  let cs_dict := <["port" := VInt p]> cs_dict in
  let verify_opt := cs_dict !! "verify" in
  Ok (<["verify" := VBool (coerce_verify verify_opt)]> cs_dict).

Section Connect.

Variable client_connect : gmap string pyval -> connect_outcome.

Definition failed (cs_dict : gmap string pyval) (self : SplunkDriver) (e : exn)
  : connect_result :=
  {| class_defaults := cs_dict; driver := self; outcome := Raise e; stdout := [] |}.

(** [cs_dict] is the class attribute itself, not a copy: every update of
    [cs_dict] is an update of the class-level dictionary, which is why each
    exit returns the current [cs_dict] as the new class state.  [kwargs]
    stands for the keyword arguments of a call; in Python they cannot
    include the names of the method's own parameters, [self] and
    [connection_str], which a theorem that builds [kwargs] from other data
    has to assume. *)
Definition connect (defaults : gmap string pyval) (self : SplunkDriver)
    (connection_str : option string) (kwargs : gmap string pyval)
  : connect_result :=
  match supplied connection_str kwargs with
  | Raise e => failed defaults self e
  | Ok new =>
      let cs_dict := new ∪ defaults in
      match coerce_params cs_dict with
      | Raise e => failed cs_dict self e
      | Ok cs_dict =>
          match check_kwargs cs_dict required_args with
          | Raise (NameError args) =>
              failed cs_dict self
                (MsticpyUserError args "Required arguments missing")
          | Raise e => failed cs_dict self e
          | Ok _ =>
              match client_connect (arg_dict_of cs_dict) with
              | Connected svc =>
                  {| class_defaults := cs_dict;
                     driver := {| service := Some svc;
                                  _loaded := _loaded self;
                                  _connected := true;
                                  _debug := _debug self |};
                     outcome := Ok tt;
                     stdout := ["Connected to Splunk successfully !!"] |}
              | AuthenticationError err | HTTPError err =>
                  failed cs_dict self
                    (MsticpyConnectionError
                       ["Error connecting to Splunk: " ++ err]
                       "Splunk connection")
              end
          end
      end
  end.

End Connect.

(** ** query and the accessors *)

(** The objects [query] handles and returns. *)
Inductive pyobj : Type :=
| ONone
| OInt (n : Z)
| OList (rows : list row)
| ODataFrame (rows : list row)      (* one table row per record *)
| OTuple (a b : pyobj).

(** [isinstance(o, int)] *)
Definition is_int (o : pyobj) : bool :=
  match o with OInt _ => true | _ => false end.

(** [pd.DataFrame(pd.io.json.json_normalize(o))]: the flattening of nested
    fields into dotted columns is pandas' and is not modelled; the table
    keeps one row per record, in order. *)
Definition to_dataframe (o : pyobj) : result pyobj :=
  match o with
  | OList rows => Ok (ODataFrame rows)
  | _ => Raise TypeError
  end.

(** The loop [for row in reader: json_response.append(row)]. *)
Definition read_all (reader : list row) : pyobj :=
  OList (fold_left (fun json_response r => (json_response ++ [r])%list) reader []).

(** Lines 156-159: what [query] does with [json_response].  The second
    component is what is printed. *)
Definition query_return (json_response : pyobj) : result pyobj * list string :=
  if is_int json_response then
    (Ok (OTuple ONone json_response),
     ["Warning - query did not return any results."])
  else (to_dataframe json_response, []).

Definition not_connected_builtin : exn :=
  ConnectionError ["Source is not connected."; "Please call connect() and retry"].

Definition query (self : SplunkDriver) (query : string)
  : result pyobj * list string :=
  if negb (_connected self) then (Raise not_connected_builtin, [])
  else
    match service self with
    | None => (Raise AttributeError, [])
    | Some svc =>
        let reader := oneshot svc query in
        let json_response := read_all reader in
        query_return json_response
    end.

(** A two-column table, column by column. *)
Record Table2 (A : Type) := { col_name : list string; col_other : list A }.
Arguments col_name {A} _.
Arguments col_other {A} _.

Definition _saved_searches (self : SplunkDriver) : result (Table2 string) :=
  if negb (connected self) then
    Raise (MsticpyNotConnectedError
             ["Please run the connect() method before running a query."]
             "not connected to a workspace." "TBD")
  else
    match service self with
    | None => Raise AttributeError
    | Some svc =>
        let savedsearches := saved_searches svc in
        Ok {| col_name := map ss_name savedsearches;
              col_other := map ss_search savedsearches |}
    end.

Definition _fired_alerts (self : SplunkDriver) : result (Table2 Z) :=
  if negb (connected self) then Raise not_connected_builtin
  else
    match service self with
    | None => Raise AttributeError
    | Some svc =>
        let firedalerts := fired_alerts svc in
        Ok {| col_name := map fa_name firedalerts;
              col_other := map fa_count firedalerts |}
    end.

(** The fields a new driver starts with (lines 59-62 of [__init__]). *)
Definition new_driver (debug : option pyval) : SplunkDriver :=
  {| service := None;
     _loaded := true;
     _connected := false;
     _debug := default (VBool false) debug |}.

(** [__init__]: after setting the fields it builds [public_attribs], reading
    the two accessor properties of the still unconnected driver. *)
Definition __init__ (debug : option pyval) : result SplunkDriver :=
  let self := new_driver debug in
  _ ← _saved_searches self;
  _ ← _fired_alerts self;
  Ok self.

(** ** Concrete collaborators used by the examples *)

Definition empty_service : Service :=
  {| oneshot := fun _ => []; saved_searches := []; fired_alerts := [] |}.

(** A session factory that accepts everything. *)
Definition accept_all (args : gmap string pyval) : connect_outcome :=
  Connected empty_service.

(** A session factory that insists on being told the scheme. *)
Definition require_scheme (args : gmap string pyval) : connect_outcome :=
  match args !! "scheme" with
  | Some _ => Connected empty_service
  | None => HTTPError "no scheme"
  end.

Definition creds : gmap string pyval :=
  <["host" := VStr "h"]> (<["username" := VStr "u"]> (<["password" := VStr "p"]> ∅)).

(** ** The remaining members of the driver *)

(** [query_with_results]: the body is its docstring, so the call returns
    [None] whatever it is given. *)
Definition query_with_results (self : SplunkDriver) (query : string)
    (kwargs : gmap string pyval) : pyobj :=
  ONone.

(** [service_queries]: the dictionary comprehension over the saved searches
    of the session, a later search overriding an earlier one of the same
    name, and the name of the container.  There is no connection guard
    before [self.service] is used. *)
Definition service_queries (self : SplunkDriver)
  : result (gmap string string * string) :=
  match service self with
  | None => Raise AttributeError
  | Some svc =>
      Ok (foldl (fun d search => <[ss_name search := ss_search search]> d)
                ∅ (saved_searches svc),
          "SavedSearches")
  end.

(** ** Histories *)

(** The class-level dictionary and one driver instance, as any sequence of
    instantiations and [connect] calls, on this driver or on another one,
    can leave them. *)
Inductive reachable : gmap string pyval -> SplunkDriver -> Prop :=
| reach_init debug :
    reachable _CONNECT_DEFAULTS (new_driver debug)
| reach_new defaults other debug :
    reachable defaults other ->
    reachable defaults (new_driver debug)
| reach_connect client_connect defaults self cs kw :
    reachable defaults self ->
    reachable (class_defaults (connect client_connect defaults self cs kw))
              (driver (connect client_connect defaults self cs kw))
| reach_other client_connect defaults self other cs kw :
    reachable defaults self ->
    reachable defaults other ->
    reachable (class_defaults (connect client_connect defaults other cs kw)) self.

(** * Properties *)

(** ** Strings *)

Lemma join_cons sep x y l :
  Py.join sep (x :: y :: l) = x ++ sep ++ Py.join sep (y :: l).
Proof. reflexivity. Qed.

Lemma read_all_list reader : read_all reader = OList reader.
Proof.
  unfold read_all. f_equal.
  enough (H : forall acc : list row,
             fold_left (fun j r => (j ++ [r])%list) reader acc = (acc ++ reader)%list)
    by apply (H []).
  induction reader as [|r reader IH]; intros acc; simpl.
  - by rewrite app_nil_r.
  - rewrite IH, <- app_assoc. reflexivity.
Qed.

Lemma str_app_cons (c : ascii) (s t : string) : String c s ++ t = String c (s ++ t).
Proof. reflexivity. Qed.

Lemma str_app_nil_l (t : string) : "" ++ t = t.
Proof. reflexivity. Qed.

Lemma str_app_nil_r (s : string) : s ++ "" = s.
Proof. induction s as [|c s IH]; [reflexivity | by rewrite str_app_cons, IH]. Qed.

Lemma str_app_assoc_r (a b c : string) : (a ++ b) ++ c = a ++ b ++ c.
Proof. induction a as [|x a IH]; [reflexivity | by rewrite !str_app_cons, IH]. Qed.

Lemma str_length_app (a b : string) :
  String.length (a ++ b) = (String.length a + String.length b)%nat.
Proof.
  induction a as [|x a IH]; [reflexivity | rewrite str_app_cons; simpl; by rewrite IH].
Qed.

Lemma prefix_app (n h : string) :
  String.prefix n h = true <-> exists q, h = n ++ q.
Proof.
  revert h. induction n as [|c n IH]; intros h.
  - split; [intros _; by exists h | intros _; by destruct h].
  - destruct h as [|d h]; simpl.
    + split; [discriminate | intros [q Hq]; discriminate].
    + destruct (ascii_dec c d) as [->|Hne].
      * rewrite IH. split; intros [q Hq]; exists q; [by rewrite Hq | by injection Hq].
      * split; [discriminate | intros [q Hq]; injection Hq; congruence].
Qed.

(** [contains] is the substring relation. *)
Lemma contains_spec (n h : string) :
  Py.contains n h = true <-> exists p q, h = p ++ n ++ q.
Proof.
  induction h as [|d h IH].
  - change (Py.contains n "") with (String.prefix n "" || false).
    rewrite orb_false_r, prefix_app. split.
    + intros [q Hq]. by exists "", q.
    + intros [p [q Hpq]]. destruct p; [by exists q | discriminate].
  - change (Py.contains n (String d h))
      with (String.prefix n (String d h) || Py.contains n h).
    rewrite orb_true_iff, IH, prefix_app. split.
    + intros [[q Hq] | [p [q Hpq]]].
      * by exists "", q.
      * exists (String d p), q. by rewrite str_app_cons, Hpq.
    + intros [p [q Hpq]]. destruct p as [|e p].
      * left. by exists q.
      * right. exists p, q. rewrite str_app_cons in Hpq. by injection Hpq.
Qed.

(** ** Formatters *)

(** C9: the list formatter wraps each element in double quotes and joins
    them with commas, in input order, and escapes nothing: the output is as
    long as the elements, two quotes for each, and one comma between
    neighbours.  On ["a", "b,c"] it returns "a","b,c". *)
Theorem format_list_spec :
  _format_list [] = "" /\
  (forall x, _format_list [x] = String dquote (Py.str x ++ String dquote "")) /\
  (forall x y l,
      _format_list (x :: y :: l) =
      String dquote (Py.str x ++ String dquote "") ++ "," ++ _format_list (y :: l)) /\
  (forall l,
      String.length (_format_list l) = (quoted_length l + (length l - 1))%nat) /\
  _format_list [VStr "a"; VStr "b,c"] =
    String dquote ("a" ++ String dquote ("," ++
      String dquote ("b,c" ++ String dquote ""))).
Proof.
  repeat split; try reflexivity.
  intros l. unfold _format_list.
  induction l as [|x [|y l] IH].
  - reflexivity.
  - simpl. rewrite str_length_app. simpl. lia.
  - change (map quoted (x :: y :: l)) with (quoted x :: quoted y :: map quoted l).
    rewrite join_cons, !str_length_app.
    change (map quoted (y :: l)) with (quoted y :: map quoted l) in IH.
    rewrite IH. unfold quoted at 1. simpl. rewrite str_length_app. simpl. lia.
Qed.

(** ** query *)

Lemma query_connected svc l dbg q :
  query {| service := Some svc; _loaded := l; _connected := true; _debug := dbg |} q
  = (Ok (ODataFrame (oneshot svc q)), []).
Proof. unfold query. simpl. by rewrite read_all_list. Qed.

(** [query] never prints: the warning of line 157 is out of reach, because
    [json_response] is always a list. *)
Lemma query_never_warns self q : (query self q).2 = [].
Proof.
  unfold query. destruct (_connected self); simpl; [|reflexivity].
  destruct (service self); [|reflexivity].
  by rewrite read_all_list.
Qed.

(** Lines 156-159 as written: on an integer the pair of [None] and the
    count, on a list one table. *)
Lemma query_return_shapes (n : Z) (rows : list row) :
  query_return (OInt n) =
    (Ok (OTuple ONone (OInt n)), ["Warning - query did not return any results."]) /\
  query_return (OList rows) = (Ok (ODataFrame rows), []) /\
  (forall a b, Ok (ODataFrame rows) <> Ok (OTuple a b)).
Proof. repeat split; discriminate. Qed.

(** C8: the no-result branch is written to return the pair of [None] and the
    raw count, but [query] never takes it, because it hands [json_response],
    always a list, to the test: whatever the driver and the query text,
    [query] never returns a pair, and a call whose backend yields zero
    records returns the empty table like every other answered call. *)
Theorem query_never_returns_pair (self : SplunkDriver) (q : string) :
  (forall a b, (query self q).1 <> Ok (OTuple a b)) /\
  (forall svc l dbg,
      oneshot svc q = [] ->
      query {| service := Some svc; _loaded := l; _connected := true;
               _debug := dbg |} q = (Ok (ODataFrame []), [])) /\
  (forall svc l dbg,
      query {| service := Some svc; _loaded := l; _connected := true;
               _debug := dbg |} q = query_return (OList (oneshot svc q))).
Proof.
  split; [|split].
  - intros a b. unfold query.
    destruct (_connected self); [|discriminate].
    destruct (service self) as [svc|]; [|discriminate].
    rewrite read_all_list. discriminate.
  - intros svc l dbg Hz. rewrite query_connected, Hz. reflexivity.
  - intros svc l dbg. by rewrite query_connected.
Qed.

(** C5: a query that yields zero records returns an empty table, but without
    the warning: nothing is printed. *)
Theorem query_zero_records_silent (l : bool) (dbg : pyval) (q : string) :
  query {| service := Some empty_service; _loaded := l;
           _connected := true; _debug := dbg |} q
  = (Ok (ODataFrame []), []).
Proof. apply query_connected. Qed.

(** C1: on a driver that is not connected, [query] and the fired-alerts
    accessor raise the builtin [ConnectionError]; only the saved-searches
    accessor raises [MsticpyNotConnectedError].  None of them touches the
    absent session. *)
Theorem not_connected_errors (svc : option Service) (l : bool) (dbg : pyval) (q : string) :
  let self := {| service := svc; _loaded := l; _connected := false; _debug := dbg |} in
  query self q =
    (Raise (ConnectionError ["Source is not connected."; "Please call connect() and retry"]), [])
  /\ _fired_alerts self =
    Raise (ConnectionError ["Source is not connected."; "Please call connect() and retry"])
  /\ _saved_searches self =
    Raise (MsticpyNotConnectedError
             ["Please run the connect() method before running a query."]
             "not connected to a workspace." "TBD").
Proof. repeat split. Qed.

(** With the accessors raising on an unconnected driver, the constructor
    cannot finish building [public_attribs]. *)
Lemma init_raises debug :
  __init__ debug =
  Raise (MsticpyNotConnectedError
           ["Please run the connect() method before running a query."]
           "not connected to a workspace." "TBD").
Proof. reflexivity. Qed.

(** ** The coercion of verify *)

(** C4, as stated, fails: a string that merely contains "true" is coerced
    to true. *)
Lemma coerce_verify_untrue :
  Py.casefold "untrue" <> "true" /\ Py.casefold "untrue" <> "false" /\
  coerce_verify (Some (VStr "untrue")) = true.
Proof. repeat split; discriminate. Qed.

(** What [coerce_params] leaves under [verify]. *)
Lemma coerce_params_verify m final :
  coerce_params m = Ok final ->
  final !! "verify" = Some (VBool (coerce_verify (m !! "verify"))).
Proof.
  unfold coerce_params, Py.getitem. destruct (m !! "port") as [port|]; [|discriminate].
  simpl. destruct (Py.int port) as [p|e]; [|discriminate]. simpl.
  intros [= <-]. rewrite lookup_insert_eq. by rewrite lookup_insert_ne.
Qed.

(** C4 (amended): [connect] stores the coerced [verify]: "True", "true" and
    "TRUE" map to true; "false" and "no", an absent value and a value that
    is neither string nor boolean map to false; a boolean passes through;
    any string maps to true exactly when its case-folded form contains
    "true", and to false otherwise. *)
Theorem coerce_verify_spec :
  (forall m final, coerce_params m = Ok final ->
     final !! "verify" = Some (VBool (coerce_verify (m !! "verify")))) /\
  coerce_verify (Some (VStr "True")) = true /\
  coerce_verify (Some (VStr "true")) = true /\
  coerce_verify (Some (VStr "TRUE")) = true /\
  coerce_verify (Some (VStr "false")) = false /\
  coerce_verify (Some (VStr "no")) = false /\
  coerce_verify None = false /\
  coerce_verify (Some VNone) = false /\
  (forall n, coerce_verify (Some (VInt n)) = false) /\
  (forall b, coerce_verify (Some (VBool b)) = b) /\
  (forall s, coerce_verify (Some (VStr s)) = true <->
             exists p q, Py.casefold s = p ++ "true" ++ q).
Proof.
  split; [exact coerce_params_verify|].
  repeat split; try reflexivity; simpl; apply contains_spec.
Qed.

Lemma coerce_verify_spec_witness :
  coerce_verify (Some (VStr "Not True")) = true.
Proof.
  destruct coerce_verify_spec as (_ & _ & _ & _ & _ & _ & _ & _ & _ & _ & Hs).
  apply Hs. exists "not ", EmptyString. reflexivity.
Defined.

(** ** connect *)

Lemma coerce_params_ok m final :
  coerce_params m = Ok final ->
  exists port p, m !! "port" = Some port /\ Py.int port = Ok p /\
    final = <["verify" := VBool (coerce_verify (m !! "verify"))]> (<["port" := VInt p]> m).
Proof.
  unfold coerce_params, Py.getitem. destruct (m !! "port") as [port|] eqn:Hp; [|discriminate].
  simpl. destruct (Py.int port) as [p|e] eqn:Hi; [|discriminate]. simpl.
  intros [= <-]. exists port, p. repeat split; try done.
  by rewrite lookup_insert_ne.
Qed.

Lemma coerce_params_lookup m final k :
  coerce_params m = Ok final -> k <> "port" -> k <> "verify" -> final !! k = m !! k.
Proof.
  intros (port & p & _ & _ & ->)%coerce_params_ok Hp Hv.
  by rewrite !lookup_insert_ne.
Qed.

Lemma coerce_params_raise m e :
  coerce_params m = Raise e -> e = KeyError "port" \/ e = ValueError \/ e = TypeError.
Proof.
  unfold coerce_params, Py.getitem. destruct (m !! "port") as [port|]; simpl.
  - destruct port as [| b | n | s]; simpl; try discriminate.
    + intros [= <-]. auto.
    + destruct (Py.int_of_str s); simpl; [discriminate | intros [= <-]; auto].
  - intros [= <-]. auto.
Qed.

Lemma check_kwargs_ok m req :
  check_kwargs m req = Ok tt <-> forall k, k ∈ req -> is_Some (m !! k).
Proof.
  unfold check_kwargs.
  destruct (filter (fun k => m !! k = None) req) as [|x l] eqn:Hf.
  - split; [intros _ k Hk | done].
    destruct (m !! k) eqn:Hmk; [eauto|].
    assert (k ∈ filter (fun k => m !! k = None) req) as Hin
      by (apply list_elem_of_filter; done).
    rewrite Hf in Hin. by apply elem_of_nil in Hin.
  - split; [discriminate|]. intros Hall.
    assert (x ∈ filter (fun k => m !! k = None) req) as Hin
      by (rewrite Hf; left).
    apply list_elem_of_filter in Hin as [Hx Hreq].
    destruct (Hall x Hreq) as [v Hv]. congruence.
Qed.

Lemma check_kwargs_raise m req e :
  check_kwargs m req = Raise e ->
  e = NameError (filter (fun k => m !! k = None) req) /\
  filter (fun k => m !! k = None) req <> [].
Proof.
  unfold check_kwargs.
  destruct (filter (fun k => m !! k = None) req) as [|x l]; [discriminate|].
  intros [= <-]. done.
Qed.

Lemma required_not_coerced k :
  k ∈ required_args -> k <> "port" /\ k <> "verify".
Proof.
  unfold required_args. rewrite !elem_of_cons, elem_of_nil.
  intros [-> | [-> | [-> | []]]]; split; discriminate.
Qed.

Lemma missing_filter_agree (m1 m2 : gmap string pyval) (req : list string) :
  (forall k, k ∈ req -> m1 !! k = m2 !! k) ->
  filter (fun k => m1 !! k = None) req = filter (fun k => m2 !! k = None) req.
Proof.
  induction req as [|x req IH]; intros Hag; [reflexivity|].
  rewrite !filter_cons.
  rewrite (Hag x) by left.
  rewrite IH by (intros k Hk; apply Hag; by right).
  reflexivity.
Qed.

Section ConnectFacts.

Variable client_connect : gmap string pyval -> connect_outcome.

(** When [connect] succeeds, the session factory was given the recognized
    part of the dictionary the class is left with, and returned the session
    the driver now holds. *)
Lemma connect_ok_args defaults self cs kw :
  let r := connect client_connect defaults self cs kw in
  outcome r = Ok tt ->
  exists svc, client_connect (arg_dict_of (class_defaults r)) = Connected svc /\
              service (driver r) = Some svc /\ _connected (driver r) = true.
Proof.
  unfold connect.
  destruct (supplied cs kw) as [new|e]; [|discriminate].
  destruct (coerce_params (new ∪ defaults)) as [final|e]; [|discriminate].
  destruct (check_kwargs final required_args) as [[]|[]]; try discriminate.
  destruct (client_connect (arg_dict_of final)) as [svc| |] eqn:Hf; try discriminate.
  simpl. intros _. by exists svc.
Qed.

(** What [connect] leaves in the class-level dictionary under a key other
    than [port] and [verify]. *)
Lemma connect_class_lookup defaults self cs kw k :
  k <> "port" -> k <> "verify" ->
  class_defaults (connect client_connect defaults self cs kw) !! k =
  match supplied cs kw with
  | Ok new => (new ∪ defaults) !! k
  | Raise _ => defaults !! k
  end.
Proof.
  intros Hp Hv. unfold connect.
  destruct (supplied cs kw) as [new|e]; [|reflexivity].
  destruct (coerce_params (new ∪ defaults)) as [final|e] eqn:Hc; [|reflexivity].
  pose proof (coerce_params_lookup _ _ k Hc Hp Hv) as Hk.
  destruct (check_kwargs final required_args) as [[]|[]]; try done.
  destruct (client_connect (arg_dict_of final)); done.
Qed.

End ConnectFacts.

(** C3, as stated, fails: with all three required keys present and a session
    factory that accepts everything, a port that is no integer literal makes
    [connect] raise [ValueError]. *)
Lemma connect_bad_port_fails :
  let kwargs := <["port" := VStr "abc"]> creds in
  let r := connect accept_all _CONNECT_DEFAULTS (new_driver None) None kwargs in
  (forall k, k ∈ required_args -> is_Some ((kwargs ∪ _CONNECT_DEFAULTS) !! k)) /\
  outcome r = Raise ValueError /\ _connected (driver r) = false.
Proof.
  split; [|split; reflexivity].
  intros k. unfold required_args. rewrite !elem_of_cons, elem_of_nil.
  intros [-> | [-> | [-> | []]]]; vm_compute; eauto.
Qed.

(** C3 (amended): for every merged parameter set whose [port] can be coerced
    to an integer: if it contains host, username and password, [connect]
    succeeds whenever the session factory does, and marks the driver
    connected; if it misses any of the three, [connect] fails with the
    missing-argument error naming exactly the missing keys. *)
Theorem connect_required_keys
    (client_connect : gmap string pyval -> connect_outcome)
    (defaults : gmap string pyval) (self : SplunkDriver)
    (cs : option string) (kw new final : gmap string pyval) :
  supplied cs kw = Ok new ->
  coerce_params (new ∪ defaults) = Ok final ->
  let merged := new ∪ defaults in
  let r := connect client_connect defaults self cs kw in
  let missing := filter (fun k => merged !! k = None) required_args in
  ((forall k, k ∈ required_args -> is_Some (merged !! k)) ->
   forall svc, client_connect (arg_dict_of final) = Connected svc ->
     outcome r = Ok tt /\ _connected (driver r) = true /\
     service (driver r) = Some svc) /\
  ((exists k, k ∈ required_args /\ merged !! k = None) ->
     outcome r = Raise (MsticpyUserError missing "Required arguments missing") /\
     driver r = self /\
     (forall k, k ∈ missing <-> k ∈ required_args /\ merged !! k = None)).
Proof.
  intros Hs Hc merged r missing.
  assert (Hag : forall k, k ∈ required_args -> final !! k = merged !! k).
  { intros k [Hp Hv]%required_not_coerced. by apply coerce_params_lookup. }
  subst r. unfold connect. rewrite Hs, Hc. split.
  - intros Hall svc Hf.
    assert (check_kwargs final required_args = Ok tt) as ->.
    { apply check_kwargs_ok. intros k Hk. rewrite Hag by done. by apply Hall. }
    rewrite Hf. done.
  - intros (k & Hk & Hnone).
    destruct (check_kwargs final required_args) as [[]|e] eqn:Hck.
    + apply check_kwargs_ok with (k := k) in Hck; [|done].
      rewrite Hag, Hnone in Hck by done. by destruct Hck.
    + apply check_kwargs_raise in Hck as [-> _].
      rewrite (missing_filter_agree final merged) by done.
      split; [done|]. split; [done|].
      intros k'. subst missing. rewrite list_elem_of_filter. tauto.
Qed.

Lemma connect_required_keys_witness :
  let r := connect accept_all _CONNECT_DEFAULTS (new_driver None) None creds in
  outcome r = Ok tt /\ _connected (driver r) = true /\
  service (driver r) = Some empty_service.
Proof.
  refine (proj1 (connect_required_keys accept_all _CONNECT_DEFAULTS (new_driver None)
                   None creds creds
                   (<["verify" := VBool false]> (<["port" := VInt 8089]>
                                                   (creds ∪ _CONNECT_DEFAULTS)))
                   _ _) _ empty_service _).
  - vm_compute. reflexivity.
  - vm_compute. reflexivity.
  - intros k. unfold required_args. rewrite !elem_of_cons, elem_of_nil.
    intros [-> | [-> | [-> | []]]]; vm_compute; eauto.
  - reflexivity.
Defined.

(** ** The two input sources *)

Lemma cs_pair_raise item e : cs_pair item = Raise e -> e = IndexError.
Proof.
  unfold cs_pair, Py.index.
  destruct (Py.split "=" item !! 0%nat); simpl; [|by intros [= <-]].
  destruct (Py.split "=" item !! 1%nat); simpl; [discriminate | by intros [= <-]].
Qed.

Lemma cs_comprehension_raise items acc e :
  cs_comprehension items acc = Raise e -> e = IndexError.
Proof.
  revert acc. induction items as [|item items IH]; intros acc; simpl; [discriminate|].
  destruct (cs_pair item) as [kv|e'] eqn:Hp; simpl.
  - apply IH.
  - intros [= <-]. by apply cs_pair_raise in Hp.
Qed.

Lemma supplied_raise cs kw e :
  supplied cs kw = Raise e ->
  (e = IndexError /\ is_Some (str_truthy cs)) \/
  (e = no_params_error /\ str_truthy cs = None /\ kw = ∅).
Proof.
  unfold supplied. destruct (str_truthy cs) as [s|].
  - intros He%cs_comprehension_raise. left. eauto.
  - destruct (decide (kw = ∅)) as [->|]; [|discriminate].
    intros [= <-]. by right.
Qed.

(** C6, as stated, fails: with both sources non-empty the call does not
    fail; the connection string is used. *)
Lemma connect_both_sources_accepted :
  let cs := Some "host=h;username=u;password=p" in
  let kwargs : gmap string pyval := <["port" := VInt 1]> ∅ in
  let r := connect accept_all _CONNECT_DEFAULTS (new_driver None) cs kwargs in
  is_Some (str_truthy cs) /\ kwargs <> ∅ /\
  outcome r = Ok tt /\ class_defaults r !! "port" = Some (VInt 8089).
Proof. repeat split; done. Qed.

(** C6 (amended): [connect] fails with the user-input error exactly when
    both the connection string and the named parameters are empty, and then
    changes nothing; the message lists every recognized parameter with its
    description.  When the connection string is non-empty it is used and the
    named parameters are ignored. *)
Theorem connect_no_params
    (client_connect : gmap string pyval -> connect_outcome)
    (defaults : gmap string pyval) (self : SplunkDriver)
    (cs : option string) (kw : gmap string pyval) :
  let r := connect client_connect defaults self cs kw in
  (outcome r = Raise no_params_error <-> str_truthy cs = None /\ kw = ∅) /\
  (str_truthy cs = None -> kw = ∅ -> r = failed defaults self no_params_error) /\
  (is_Some (str_truthy cs) -> r = connect client_connect defaults self cs ∅) /\
  (exists args,
      no_params_error = MsticpyUserError args "no Splunk connection parameters" /\
      forall arg desc, (arg, desc) ∈ SPLUNK_CONNECT_ARGS -> arg ++ ": " ++ desc ∈ args).
Proof.
  intros r. subst r. split; [split|split; [|split]].
  - unfold connect.
    destruct (supplied cs kw) as [new|e] eqn:Hs.
    + intros Hout. exfalso. revert Hout.
      destruct (coerce_params (new ∪ defaults)) as [final|e] eqn:Hc; simpl.
      * destruct (check_kwargs final required_args) as [[]|e] eqn:Hck; simpl.
        -- destruct (client_connect (arg_dict_of final)); discriminate.
        -- apply check_kwargs_raise in Hck as [-> _]. discriminate.
      * apply coerce_params_raise in Hc as [-> | [-> | ->]]; discriminate.
    + simpl. intros [= ->].
      apply supplied_raise in Hs as [[? _] | [_ ?]]; [discriminate | done].
  - intros [Hcs ->]. unfold connect, supplied. rewrite Hcs.
    destruct (decide (∅ = ∅)); done.
  - intros Hcs ->. unfold connect, supplied. rewrite Hcs.
    destruct (decide (∅ = ∅)); done.
  - intros [s Hcs]. unfold connect, supplied. by rewrite Hcs.
  - eexists. split; [reflexivity|].
    intros arg desc Hin. apply elem_of_app. right.
    apply (list_elem_of_fmap_2 (fun ad => ad.1 ++ ": " ++ ad.2) _ (arg, desc) Hin).
Qed.

Lemma connect_no_params_witness :
  connect accept_all _CONNECT_DEFAULTS (new_driver None) (Some "") ∅ =
  failed _CONNECT_DEFAULTS (new_driver None) no_params_error.
Proof.
  apply (proj1 (proj2 (connect_no_params accept_all _CONNECT_DEFAULTS
                         (new_driver None) (Some "") ∅))); reflexivity.
Defined.

(** ** The class-level defaults *)

(** C7: on the initial class state, a call that supplies only the three
    required keys hands the session factory the default port and verify,
    but no scheme: the default sits under the key [http_scheme], which is
    not a recognized parameter and is filtered out. *)
Theorem fresh_connect_passes_no_scheme :
  let r := connect accept_all _CONNECT_DEFAULTS (new_driver None) None creds in
  outcome r = Ok tt /\
  arg_dict_of (class_defaults r) !! "port" = Some (VInt 8089) /\
  arg_dict_of (class_defaults r) !! "verify" = Some (VBool false) /\
  arg_dict_of (class_defaults r) !! "scheme" = None /\
  class_defaults r !! "http_scheme" = Some (VStr "https") /\
  outcome (connect require_scheme _CONNECT_DEFAULTS (new_driver None) None creds) =
    Raise (MsticpyConnectionError ["Error connecting to Splunk: no scheme"]
                                  "Splunk connection").
Proof. vm_compute. repeat split. Qed.

(** The same for every call on the initial class state that supplies no
    scheme itself. *)
Lemma default_scheme_not_passed (new final : gmap string pyval) :
  new !! "scheme" = None ->
  coerce_params (new ∪ _CONNECT_DEFAULTS) = Ok final ->
  arg_dict_of final !! "scheme" = None.
Proof.
  intros Hnew Hc. unfold arg_dict_of.
  apply map_lookup_filter_None. left.
  rewrite (coerce_params_lookup _ _ "scheme" Hc) by discriminate.
  apply lookup_union_None. split; [done | reflexivity].
Qed.

Section ClassState.

Variable client_connect : gmap string pyval -> connect_outcome.

Lemma connect_class_cases defaults self cs kw new :
  supplied cs kw = Ok new ->
  let r := connect client_connect defaults self cs kw in
  (class_defaults r = new ∪ defaults /\
   exists e, coerce_params (new ∪ defaults) = Raise e) \/
  (exists final, coerce_params (new ∪ defaults) = Ok final /\ class_defaults r = final).
Proof.
  intros Hs. unfold connect. rewrite Hs.
  destruct (coerce_params (new ∪ defaults)) as [final|e] eqn:Hc.
  - right. exists final. split; [done|].
    destruct (check_kwargs final required_args) as [[]|[]]; try done.
    destruct (client_connect (arg_dict_of final)); done.
  - left. eauto.
Qed.

End ClassState.

(** C10, as stated, fails: when a connection string is supplied one of whose
    segments has no [=], the call raises before the update and nothing is
    written; and a supplied [verify] is not kept as supplied. *)
Lemma connect_unparsed_string_writes_nothing :
  let r := connect accept_all _CONNECT_DEFAULTS (new_driver None) (Some "host=h1;") ∅ in
  let r' := connect accept_all _CONNECT_DEFAULTS (new_driver None) None
              (<["verify" := VStr "yes"]> creds) in
  outcome r = Raise IndexError /\
  class_defaults r = _CONNECT_DEFAULTS /\
  class_defaults r !! "host" = None /\
  class_defaults r' !! "verify" = Some (VBool false).
Proof. vm_compute. repeat split. Qed.

(** C10 (amended): every call of [connect] that supplies keyword parameters,
    or a connection string that parses, writes the supplied values into the
    class-level dictionary, whatever the outcome of the call ([port] and
    [verify] in their coerced form once the coercion is done); every later
    call, on any driver, merges over them, and they stay there unless
    supplied anew. *)
Theorem connect_updates_class_defaults
    (client_connect : gmap string pyval -> connect_outcome)
    (defaults : gmap string pyval) (self : SplunkDriver)
    (cs : option string) (kw new : gmap string pyval) (k : string) (v : pyval) :
  supplied cs kw = Ok new ->
  new !! k = Some v ->
  let r := connect client_connect defaults self cs kw in
  (class_defaults r !! k = Some v \/
   (k = "port" /\ exists p, Py.int v = Ok p /\ class_defaults r !! k = Some (VInt p)) \/
   (k = "verify" /\
    class_defaults r !! k = Some (VBool (coerce_verify (Some v))))) /\
  (forall cs2 kw2 new2,
      supplied cs2 kw2 = Ok new2 -> new2 !! k = None ->
      (new2 ∪ class_defaults r) !! k = class_defaults r !! k) /\
  (forall client_connect2 self2 cs2 kw2,
      k <> "port" -> k <> "verify" ->
      (forall new2, supplied cs2 kw2 = Ok new2 -> new2 !! k = None) ->
      class_defaults (connect client_connect2 (class_defaults r) self2 cs2 kw2) !! k
      = Some v).
Proof.
  intros Hs Hk r.
  assert (Hm : (new ∪ defaults) !! k = Some v) by (by apply lookup_union_Some_l).
  split; [|split].
  - destruct (connect_class_cases client_connect defaults self cs kw new Hs)
      as [[Hr _] | (final & Hc & Hr)]; fold r in Hr; rewrite Hr.
    + by left.
    + destruct (decide (k = "port")) as [->|Hp].
      * right; left. split; [done|].
        apply coerce_params_ok in Hc as (port & p & Hport & Hint & ->).
        exists p. rewrite Hm in Hport. injection Hport as <-.
        split; [done|]. rewrite lookup_insert_ne by discriminate.
        by rewrite lookup_insert_eq.
      * destruct (decide (k = "verify")) as [->|Hv].
        -- right; right. split; [done|].
           apply coerce_params_ok in Hc as (port & p & _ & _ & ->).
           by rewrite lookup_insert_eq, Hm.
        -- left. by rewrite (coerce_params_lookup _ _ k Hc).
  - intros cs2 kw2 new2 _ Hn. by apply lookup_union_r.
  - intros f2 self2 cs2 kw2 Hp Hv Hnot.
    assert (Hrk : class_defaults r !! k = Some v).
    { subst r. rewrite connect_class_lookup, Hs by done. done. }
    rewrite connect_class_lookup by done.
    destruct (supplied cs2 kw2) as [new2|e] eqn:Hs2; [|done].
    rewrite lookup_union_r by (by apply Hnot). done.
Qed.

(** Credentials given to one driver serve a later call on another driver
    that supplies none, even though the first call failed. *)
Lemma connect_updates_class_defaults_witness :
  let first := connect (fun _ => HTTPError "down") _CONNECT_DEFAULTS
                 (new_driver None) None creds in
  let second := connect accept_all (class_defaults first) (new_driver None)
                  None (<["port" := VInt 9000]> ∅) in
  outcome first =
    Raise (MsticpyConnectionError ["Error connecting to Splunk: down"]
                                  "Splunk connection") /\
  class_defaults first !! "password" = Some (VStr "p") /\
  outcome second = Ok tt /\
  class_defaults second !! "password" = Some (VStr "p").
Proof.
  pose proof (connect_updates_class_defaults (fun _ => HTTPError "down")
                _CONNECT_DEFAULTS (new_driver None) None creds creds
                "password" (VStr "p") eq_refl eq_refl) as (H1 & _ & H3).
  split; [reflexivity|]. split.
  - destruct H1 as [H1 | [[Hk _] | [Hk _]]]; [exact H1 | discriminate Hk | discriminate Hk].
  - split; [reflexivity|].
    apply (H3 accept_all (new_driver None) None (<["port" := VInt 9000]> ∅)).
    + discriminate.
    + discriminate.
    + intros new2 Hs2. vm_compute in Hs2. injection Hs2 as <-. reflexivity.
Defined.

(** ** Parsing the connection string *)

Lemma split_cons_sep c s : Py.split c (String c s) = "" :: Py.split c s.
Proof. simpl. by rewrite Ascii.eqb_refl. Qed.

Lemma split_nonempty c s : Py.split c s <> [].
Proof.
  induction s as [|d s IH]; simpl; [discriminate|].
  destruct (Ascii.eqb d c); [discriminate|].
  destruct (Py.split c s); [done | discriminate].
Qed.

Lemma split_no_sep c s : occurs c s = false -> Py.split c s = [s].
Proof.
  induction s as [|d s IH]; [reflexivity|].
  simpl. intros [Hd Hs]%orb_false_iff. rewrite Hd, (IH Hs). reflexivity.
Qed.

Lemma split_app c s t :
  occurs c s = false -> Py.split c (s ++ String c t) = s :: Py.split c t.
Proof.
  induction s as [|d s IH].
  - intros _. rewrite str_app_nil_l. apply split_cons_sep.
  - simpl. intros [Hd Hs]%orb_false_iff.
    rewrite ?str_app_cons. simpl. rewrite Hd, (IH Hs). reflexivity.
Qed.

Lemma split_join c segs :
  segs <> [] -> Forall (fun s => occurs c s = false) segs ->
  Py.split c (Py.join (String c "") segs) = segs.
Proof.
  induction segs as [|s [|s' segs] IH]; [done| |]; intros _ Hall.
  - apply split_no_sep. by inversion Hall.
  - rewrite join_cons, str_app_cons, str_app_nil_l.
    inversion Hall as [|? ? Hs Hrest]; subst.
    rewrite split_app by done. f_equal. by apply IH.
Qed.

Lemma occurs_app c s t : occurs c (s ++ t) = occurs c s || occurs c t.
Proof.
  induction s as [|d s IH]; [reflexivity|].
  rewrite str_app_cons. simpl. by rewrite IH, orb_assoc.
Qed.

(** A segment with one [=]: the key is stripped, the value kept whole. *)
Lemma cs_pair_one_eq k v :
  occurs "=" k = false -> occurs "=" v = false ->
  cs_pair (k ++ "=" ++ v) = Ok (Py.strip k, VStr v).
Proof.
  intros Hk Hv. unfold cs_pair.
  rewrite str_app_cons, str_app_nil_l, split_app, (split_no_sep _ v) by done.
  reflexivity.
Qed.

(** A segment without [=] has no second piece. *)
Lemma cs_pair_no_eq s : occurs "=" s = false -> cs_pair s = Raise IndexError.
Proof. intros Hs. unfold cs_pair. by rewrite split_no_sep. Qed.

(** A segment with a second [=]: the value stops there. *)
Lemma cs_pair_two_eq k v rest :
  occurs "=" k = false -> occurs "=" v = false ->
  cs_pair (k ++ "=" ++ v ++ "=" ++ rest) = Ok (Py.strip k, VStr v).
Proof.
  intros Hk Hv. unfold cs_pair.
  rewrite !str_app_cons, !str_app_nil_l, !split_app by done.
  reflexivity.
Qed.

Lemma cs_comprehension_pairs (kvs : list (string * string)) acc :
  Forall (fun kv => plain kv.1 = true /\ plain kv.2 = true) kvs ->
  cs_comprehension (map (fun kv => kv.1 ++ "=" ++ kv.2) kvs) acc =
  Ok (foldl (fun m kv => <[Py.strip kv.1 := VStr kv.2]> m) acc kvs).
Proof.
  revert acc. induction kvs as [|[k v] kvs IH]; intros acc Hall; [reflexivity|].
  inversion Hall as [|? ? [Hk Hv] Hrest]; subst. simpl in Hk, Hv.
  unfold plain in Hk, Hv.
  apply andb_true_iff in Hk as [_ Hk%negb_true_iff].
  apply andb_true_iff in Hv as [_ Hv%negb_true_iff].
  simpl. rewrite cs_pair_one_eq by done. simpl. by apply IH.
Qed.

(** C2, as stated, fails: the value is not everything after the first [=],
    it ends at the second one; and a string with a segment lacking [=] is
    not parsed at all. *)
Lemma parse_value_stops_at_second_eq :
  let r := connect accept_all _CONNECT_DEFAULTS (new_driver None)
             (Some "host=h;username=u;password=a=b") ∅ in
  class_defaults r !! "password" = Some (VStr "a") /\
  class_defaults r !! "password" <> Some (VStr "a=b") /\
  parse_connection_str "host=h;username=u;password=p;" = Raise IndexError.
Proof. split; [reflexivity | split; [discriminate | reflexivity]]. Qed.

(** C2 (amended): a connection string made of segments [key=value] joined by
    [;], where no key or value contains [;] or [=], is split on [;] and each
    segment at its [=]; the key is stripped of surrounding whitespace, the
    value kept as it is, a later key overriding an equal earlier one.  The
    string "host=h1;port=9000;username=u;password=p" yields host "h1", port
    "9000" (9000 as an integer once [connect] has coerced it), username "u"
    and password "p". *)
Theorem parse_connection_str_pairs (kvs : list (string * string)) :
  kvs <> [] ->
  Forall (fun kv => plain kv.1 = true /\ plain kv.2 = true) kvs ->
  let cs := Py.join ";" (map (fun kv => kv.1 ++ "=" ++ kv.2) kvs) in
  Py.split ";" cs = map (fun kv => kv.1 ++ "=" ++ kv.2) kvs /\
  parse_connection_str cs =
    Ok (foldl (fun m kv => <[Py.strip kv.1 := VStr kv.2]> m) ∅ kvs) /\
  (forall kw, supplied (Some cs) kw = parse_connection_str cs) /\
  parse_connection_str "host=h1;port=9000;username=u;password=p" =
    Ok (<["host" := VStr "h1"]> (<["port" := VStr "9000"]>
         (<["username" := VStr "u"]> (<["password" := VStr "p"]> ∅)))) /\
  (let r := connect accept_all _CONNECT_DEFAULTS (new_driver None)
              (Some "host=h1;port=9000;username=u;password=p") ∅ in
   arg_dict_of (class_defaults r) =
     <["host" := VStr "h1"]> (<["port" := VInt 9000]>
       (<["username" := VStr "u"]> (<["password" := VStr "p"]>
         (<["verify" := VBool false]> ∅))))).
Proof.
  intros Hne Hall cs.
  assert (Hsplit : Py.split ";" cs = map (fun kv => kv.1 ++ "=" ++ kv.2) kvs).
  { subst cs. apply split_join.
    - by destruct kvs.
    - apply Forall_map. eapply Forall_impl; [exact Hall|].
      intros [k v] [Hk Hv]. simpl in *. unfold plain in Hk, Hv.
      apply andb_true_iff in Hk as [Hk%negb_true_iff _].
      apply andb_true_iff in Hv as [Hv%negb_true_iff _].
      rewrite !occurs_app, Hk, Hv. reflexivity. }
  split; [exact Hsplit|]. split; [|split; [|split]].
  - unfold parse_connection_str. rewrite Hsplit. by apply cs_comprehension_pairs.
  - intros kw. unfold supplied.
    assert (exists c s, cs = String c s) as (c & s & ->); [|reflexivity].
    destruct cs as [|c s]; [|eauto].
    destruct kvs as [|[k v] kvs]; [done|]. simpl in Hsplit.
    injection Hsplit as Hsplit _. destruct k; discriminate.
  - vm_compute. reflexivity.
  - vm_compute. reflexivity.
Qed.

Lemma parse_connection_str_pairs_witness :
  Py.split ";" "host=h1;port=9000;username=u;password=p" =
    ["host=h1"; "port=9000"; "username=u"; "password=p"] /\
  forall kw, supplied (Some "host=h1;port=9000;username=u;password=p") kw =
    parse_connection_str "host=h1;port=9000;username=u;password=p".
Proof.
  pose proof (parse_connection_str_pairs
                [("host", "h1"); ("port", "9000"); ("username", "u"); ("password", "p")])
    as H.
  destruct H as (H1 & _ & H3 & _).
  - discriminate.
  - repeat constructor.
  - split; [exact H1 | exact H3].
Defined.

(** * Further properties of the driver *)

(** ** What a call of connect changes *)

(** X1: a call of [connect] that raises leaves the driver as it was, so a
    failed reconnection keeps the old session and the connected flag; a call
    that returns marks the driver connected, gives it a session, keeps its
    other fields and prints the success line. *)
Theorem connect_outcome_frame
    (client_connect : gmap string pyval -> connect_outcome)
    (defaults : gmap string pyval) (self : SplunkDriver)
    (cs : option string) (kw : gmap string pyval) :
  let r := connect client_connect defaults self cs kw in
  match outcome r with
  | Raise _ => driver r = self
  | Ok _ =>
      stdout r = ["Connected to Splunk successfully !!"] /\
      _connected (driver r) = true /\ is_Some (service (driver r)) /\
      _loaded (driver r) = _loaded self /\ _debug (driver r) = _debug self
  end.
Proof.
  unfold connect.
  destruct (supplied cs kw) as [new|e]; [|done].
  destruct (coerce_params (new ∪ defaults)) as [final|e]; [|done].
  destruct (check_kwargs final required_args) as [[]|[]]; try done.
  destruct (client_connect (arg_dict_of final)) as [svc|err|err]; simpl;
    repeat split; eauto.
Qed.


Lemma recognized_port_verify : recognized "port" /\ recognized "verify".
Proof. split; apply (bool_decide_unpack _); reflexivity. Qed.

Lemma http_scheme_not_recognized : ~ recognized "http_scheme".
Proof. apply (bool_decide_eq_false_1 _). reflexivity. Qed.

(** X3: when [connect] returns, the session factory was called with the
    recognized part of the class-level dictionary and nothing else: [port]
    is an integer there, [verify] a boolean, every key is a recognized
    parameter, and the driver holds the session the factory returned. *)
Theorem connect_success_args
    (client_connect : gmap string pyval -> connect_outcome)
    (defaults : gmap string pyval) (self : SplunkDriver)
    (cs : option string) (kw : gmap string pyval) :
  let r := connect client_connect defaults self cs kw in
  let args := arg_dict_of (class_defaults r) in
  outcome r = Ok tt ->
  (exists svc, client_connect args = Connected svc /\
               service (driver r) = Some svc) /\
  (exists p, args !! "port" = Some (VInt p)) /\
  (exists b, args !! "verify" = Some (VBool b)) /\
  (forall k v, args !! k = Some v ->
               recognized k /\ class_defaults r !! k = Some v) /\
  args !! "http_scheme" = None.
Proof.
  intros r args Hok.
  destruct (connect_ok_args client_connect defaults self cs kw Hok)
    as (svc & Hf & Hsvc & _).
  split; [by exists svc|].
  assert (exists final m, class_defaults r = final /\ coerce_params m = Ok final)
    as (final & m & Hr & Hc).
  { subst r. revert Hok. unfold connect.
    destruct (supplied cs kw) as [new|e]; [|discriminate].
    destruct (coerce_params (new ∪ defaults)) as [final|e] eqn:Hc; [|discriminate].
    destruct (check_kwargs final required_args) as [[]|[]]; try discriminate.
    destruct (client_connect (arg_dict_of final)); try discriminate.
    intros _. exists final, (new ∪ defaults). by simpl. }
  subst args. rewrite Hr.
  apply coerce_params_ok in Hc as (port & p & _ & _ & ->).
  split; [|split; [|split]].
  - exists p. apply map_lookup_filter_Some. split.
    + rewrite lookup_insert_ne by discriminate. apply lookup_insert_eq.
    + apply recognized_port_verify.
  - eexists. apply map_lookup_filter_Some. split.
    + apply lookup_insert_eq.
    + apply recognized_port_verify.
  - intros k v [Hk Hrec]%map_lookup_filter_Some. by split.
  - apply map_lookup_filter_None. right. intros v _ Hrec.
    by apply http_scheme_not_recognized in Hrec.
Qed.

Lemma connect_success_args_witness :
  arg_dict_of (class_defaults
     (connect accept_all _CONNECT_DEFAULTS (new_driver None) None
        (<["port" := VStr "9000"]> (<["debug" := VBool true]> creds))))
    !! "http_scheme" = None.
Proof.
  apply (connect_success_args accept_all _CONNECT_DEFAULTS (new_driver None) None
           (<["port" := VStr "9000"]> (<["debug" := VBool true]> creds))).
  reflexivity.
Defined.

(** ** The class-level dictionary over several calls *)

Lemma connect_dom_grows
    (client_connect : gmap string pyval -> connect_outcome)
    (defaults : gmap string pyval) (self : SplunkDriver)
    (cs : option string) (kw : gmap string pyval) :
  dom defaults ⊆ dom (class_defaults (connect client_connect defaults self cs kw)).
Proof.
  destruct (supplied cs kw) as [new|e] eqn:Hs.
  - destruct (connect_class_cases client_connect defaults self cs kw new Hs)
      as [[-> _] | (final & Hc & ->)].
    + rewrite dom_union_L. set_solver.
    + apply coerce_params_ok in Hc as (port & p & _ & _ & ->).
      rewrite !dom_insert_L, dom_union_L. set_solver.
  - unfold connect. rewrite Hs. done.
Qed.

(** X4: [connect] never removes a key from the class-level dictionary, and
    what it leaves there depends only on the dictionary before the call and
    on the two arguments: neither on the driver nor on whether the session
    factory accepts the connection. *)
Theorem connect_class_defaults_grow
    (client_connect client_connect' : gmap string pyval -> connect_outcome)
    (defaults : gmap string pyval) (self self' : SplunkDriver)
    (cs : option string) (kw : gmap string pyval) :
  dom defaults ⊆ dom (class_defaults (connect client_connect defaults self cs kw)) /\
  class_defaults (connect client_connect defaults self cs kw) =
  class_defaults (connect client_connect' defaults self' cs kw).
Proof.
  split; [apply connect_dom_grows|].
  unfold connect.
  destruct (supplied cs kw) as [new|e]; [|done].
  destruct (coerce_params (new ∪ defaults)) as [final|e]; [|done].
  destruct (check_kwargs final required_args) as [[]|[]]; try done.
  destruct (client_connect (arg_dict_of final)), (client_connect' (arg_dict_of final));
    done.
Qed.

(** X5: the validation of the arguments comes before the session factory:
    when the connection string does not parse, no source is given, the port
    cannot be coerced or the required-key check fails, [connect] raises
    without calling the factory, so the whole result is the same whatever
    the factory is. *)
Theorem connect_validation_before_backend
    (client_connect client_connect' : gmap string pyval -> connect_outcome)
    (defaults : gmap string pyval) (self : SplunkDriver)
    (cs : option string) (kw : gmap string pyval) :
  (forall new final,
      supplied cs kw = Ok new ->
      coerce_params (new ∪ defaults) = Ok final ->
      check_kwargs final required_args <> Ok tt) ->
  connect client_connect' defaults self cs kw =
  connect client_connect defaults self cs kw /\
  exists e, outcome (connect client_connect defaults self cs kw) = Raise e.
Proof.
  intros Hinvalid. unfold connect.
  destruct (supplied cs kw) as [new|e0] eqn:Hs; [|by eauto].
  destruct (coerce_params (new ∪ defaults)) as [final|e0] eqn:Hc; [|by eauto].
  specialize (Hinvalid new final eq_refl Hc).
  destruct (check_kwargs final required_args) as [[]|[]]; by eauto.
Qed.

Lemma connect_validation_before_backend_witness :
  connect require_scheme _CONNECT_DEFAULTS (new_driver None)
    (Some "host=h;port=eighty") ∅ =
  connect accept_all _CONNECT_DEFAULTS (new_driver None)
    (Some "host=h;port=eighty") ∅.
Proof.
  apply (connect_validation_before_backend accept_all require_scheme
           _CONNECT_DEFAULTS (new_driver None) (Some "host=h;port=eighty") ∅).
  intros new final Hs Hc. vm_compute in Hs. injection Hs as <-.
  vm_compute in Hc. discriminate Hc.
Defined.

(** X6: a [port] that cannot be coerced makes the call raise after the
    update of the class-level dictionary: the bad value stays there, and
    every later call that gets as far as the coercion (it supplies named
    parameters, or a connection string that parses) without a port of its
    own raises the same exception, on any driver and whatever else it
    supplies. *)
Theorem connect_bad_port_persists
    (client_connect : gmap string pyval -> connect_outcome)
    (defaults : gmap string pyval) (self : SplunkDriver)
    (cs : option string) (kw new : gmap string pyval) (port : pyval) (e : exn) :
  supplied cs kw = Ok new ->
  (new ∪ defaults) !! "port" = Some port ->
  Py.int port = Raise e ->
  let r := connect client_connect defaults self cs kw in
  outcome r = Raise e /\
  class_defaults r = new ∪ defaults /\
  forall client_connect2 self2 cs2 kw2 new2,
    supplied cs2 kw2 = Ok new2 -> new2 !! "port" = None ->
    outcome (connect client_connect2 (class_defaults r) self2 cs2 kw2) = Raise e.
Proof.
  intros Hs Hp Hi.
  assert (Hbad : forall m, m !! "port" = Some port -> coerce_params m = Raise e).
  { intros m Hm. unfold coerce_params, Py.getitem. rewrite Hm. simpl.
    by rewrite Hi. }
  assert (Hr : connect client_connect defaults self cs kw =
               failed (new ∪ defaults) self e).
  { unfold connect. by rewrite Hs, (Hbad _ Hp). }
  simpl. rewrite Hr. split; [done|]. split; [done|].
  intros f2 self2 cs2 kw2 new2 Hs2 Hn. simpl.
  unfold connect. rewrite Hs2, (Hbad (new2 ∪ (new ∪ defaults))); [done|].
  by rewrite lookup_union_r.
Qed.

Lemma connect_bad_port_persists_witness :
  let r := connect accept_all _CONNECT_DEFAULTS (new_driver None)
             (Some "port=eighty") ∅ in
  outcome r = Raise ValueError /\
  outcome (connect accept_all (class_defaults r) (new_driver None) None creds)
  = Raise ValueError.
Proof.
  pose proof (connect_bad_port_persists accept_all _CONNECT_DEFAULTS
                (new_driver None) (Some "port=eighty") ∅
                (<["port" := VStr "eighty"]> ∅) (VStr "eighty") ValueError
                eq_refl eq_refl eq_refl) as (H1 & _ & H3).
  split; [exact H1|].
  apply (H3 accept_all (new_driver None) None creds creds); reflexivity.
Defined.

(** X7: the coercion is idempotent: a dictionary that went through it goes
    through it again unchanged. *)
Theorem coerce_params_idempotent (m final : gmap string pyval) :
  coerce_params m = Ok final -> coerce_params final = Ok final.
Proof.
  intros (port & p & _ & _ & ->)%coerce_params_ok.
  unfold coerce_params, Py.getitem.
  rewrite lookup_insert_ne by discriminate. rewrite lookup_insert_eq. simpl.
  f_equal. apply map_eq. intros k.
  destruct (decide (k = "verify")) as [->|Hv]; [|destruct (decide (k = "port")) as [->|Hp]];
    repeat first [ rewrite lookup_insert_eq
                 | rewrite lookup_insert_ne by (done || discriminate) ];
    done.
Qed.

Lemma coerce_params_idempotent_witness :
  coerce_params (<["verify" := VBool true]> (<["port" := VInt 9000]> creds))
  = Ok (<["verify" := VBool true]> (<["port" := VInt 9000]> creds)).
Proof.
  apply (coerce_params_idempotent
           (<["verify" := VStr "TRUE"]> (<["port" := VStr "9000"]> creds))).
  reflexivity.
Defined.

(** ** Which connection strings parse *)

Lemma split_two_pieces c s :
  occurs c s = true -> exists p q ps, Py.split c s = p :: q :: ps.
Proof.
  induction s as [|d s IH]; [discriminate|].
  simpl. destruct (Ascii.eqb d c) eqn:Hd; simpl.
  - intros _. destruct (Py.split c s) as [|q ps] eqn:Hs;
      [by apply split_nonempty in Hs | eauto].
  - intros (p & q & ps & ->)%IH. eauto.
Qed.

Lemma split_snoc c s :
  Py.split c (s ++ String c "") = (Py.split c s ++ [""])%list.
Proof.
  induction s as [|d s IH].
  - rewrite str_app_nil_l. simpl. by rewrite Ascii.eqb_refl.
  - rewrite str_app_cons. simpl. rewrite IH.
    destruct (Ascii.eqb d c); [reflexivity|].
    destruct (Py.split c s) as [|p ps] eqn:Hs; [by apply split_nonempty in Hs|].
    reflexivity.
Qed.

Lemma cs_pair_with_eq seg :
  occurs "=" seg = true -> exists k v, cs_pair seg = Ok (k, VStr v).
Proof.
  intros (p & q & ps & Hs)%split_two_pieces.
  unfold cs_pair. rewrite Hs. simpl. eauto.
Qed.

Lemma cs_comprehension_raise_iff items acc :
  cs_comprehension items acc = Raise IndexError <->
  Exists (fun seg => occurs "=" seg = false) items.
Proof.
  revert acc. induction items as [|seg items IH]; intros acc; simpl.
  - split; [discriminate | by intros ?%Exists_nil].
  - rewrite Exists_cons. destruct (occurs "=" seg) eqn:Ho.
    + destruct (cs_pair_with_eq seg Ho) as (k & v & ->). simpl.
      rewrite IH. split; [by right | by intros [?|?]].
    + rewrite (cs_pair_no_eq seg Ho). simpl. split; [by left | done].
Qed.

(** X8: a connection string is rejected, with [IndexError], exactly when one
    of its [;]-separated segments contains no [=]; otherwise it parses. *)
Theorem parse_connection_str_rejects_iff (connection_str : string) :
  (parse_connection_str connection_str = Raise IndexError <->
   Exists (fun seg => occurs "=" seg = false) (Py.split ";" connection_str)) /\
  ((exists m, parse_connection_str connection_str = Ok m) <->
   Forall (fun seg => occurs "=" seg = true) (Py.split ";" connection_str)).
Proof.
  unfold parse_connection_str. split; [apply cs_comprehension_raise_iff|].
  pose proof (cs_comprehension_raise_iff (Py.split ";" connection_str) ∅) as Hiff.
  destruct (cs_comprehension (Py.split ";" connection_str) ∅) as [m|e] eqn:Hc.
  - split; [intros _ | by eauto].
    apply Forall_forall. intros seg Hin.
    destruct (occurs "=" seg) eqn:Ho; [done|].
    assert (Ok m = Raise IndexError) as Habs; [|discriminate Habs].
    apply Hiff. apply Exists_exists. eauto.
  - apply cs_comprehension_raise in Hc as Hc'. subst e.
    split; [by intros [m ?]|]. intros Hall.
    destruct Hiff as [Hex _]. specialize (Hex eq_refl).
    apply Exists_exists in Hex as (seg & Hin & Ho).
    rewrite Forall_forall in Hall. specialize (Hall seg Hin). congruence.
Qed.

(** X9: a connection string that ends in [;] is always rejected: the empty
    last segment has no [=], [connect] raises [IndexError], and neither the
    class-level dictionary nor the driver changes, whatever the rest of the
    string and the named parameters are. *)
Theorem connect_trailing_semicolon
    (client_connect : gmap string pyval -> connect_outcome)
    (defaults : gmap string pyval) (self : SplunkDriver)
    (s : string) (kw : gmap string pyval) :
  connect client_connect defaults self (Some (s ++ ";")) kw =
  failed defaults self IndexError.
Proof.
  assert (Hp : parse_connection_str (s ++ ";") = Raise IndexError).
  { unfold parse_connection_str. apply cs_comprehension_raise_iff.
    rewrite split_snoc. apply Exists_app. right. by left. }
  unfold connect, supplied.
  destruct (s ++ ";") as [|c t] eqn:Hs.
  - destruct s; discriminate.
  - simpl. by rewrite Hp.
Qed.

(** ** What a parsed connection string contains *)

Lemma rstrip_keeps_head c s :
  Py.isspace c = false -> exists r, Py.rstrip (String c s) = String c r.
Proof. intros Hc. simpl. rewrite Hc. destruct (Py.rstrip s); eauto. Qed.

Lemma rstrip_idempotent s : Py.rstrip (Py.rstrip s) = Py.rstrip s.
Proof.
  induction s as [|c s IH]; [reflexivity|].
  simpl. destruct (Py.rstrip s) as [|d r] eqn:Hr.
  - destruct (Py.isspace c) eqn:Hc; [reflexivity|]. simpl. by rewrite Hc.
  - simpl in *. by rewrite IH.
Qed.

Lemma lstrip_head s :
  Py.lstrip s = "" \/ exists c t, Py.lstrip s = String c t /\ Py.isspace c = false.
Proof.
  induction s as [|c s IH]; [by left|].
  simpl. destruct (Py.isspace c) eqn:Hc; [exact IH | right; eauto].
Qed.

Lemma strip_idempotent s : Py.strip (Py.strip s) = Py.strip s.
Proof.
  unfold Py.strip.
  destruct (lstrip_head s) as [-> | (c & t & -> & Hc)]; [reflexivity|].
  destruct (rstrip_keeps_head c t Hc) as [r Hr].
  rewrite Hr at 1. simpl Py.lstrip. rewrite Hc. rewrite <- Hr.
  apply rstrip_idempotent.
Qed.

Lemma cs_pair_shape seg kv :
  cs_pair seg = Ok kv -> Py.strip kv.1 = kv.1 /\ exists s, kv.2 = VStr s.
Proof.
  unfold cs_pair, Py.index.
  destruct (Py.split "=" seg !! 0%nat) as [k|]; simpl; [|discriminate].
  destruct (Py.split "=" seg !! 1%nat) as [v|]; simpl; [|discriminate].
  intros [= <-]. simpl. split; [apply strip_idempotent | eauto].
Qed.

Lemma cs_comprehension_shape items acc m :
  (forall k v, acc !! k = Some v -> Py.strip k = k /\ exists s, v = VStr s) ->
  cs_comprehension items acc = Ok m ->
  forall k v, m !! k = Some v -> Py.strip k = k /\ exists s, v = VStr s.
Proof.
  revert acc. induction items as [|seg items IH]; intros acc Hacc; simpl.
  - by intros [= <-].
  - destruct (cs_pair seg) as [kv|e] eqn:Hp; simpl; [|discriminate].
    apply IH. intros k v.
    destruct (cs_pair_shape seg kv Hp) as [Hk Hv].
    destruct (decide (kv.1 = k)) as [<-|Hne].
    + rewrite lookup_insert_eq. by intros [= <-].
    + rewrite lookup_insert_ne by done. apply Hacc.
Qed.

(** X10: in the dictionary parsed from a connection string every key is free
    of surrounding whitespace and every value is a string: a port or a
    verify flag given in a connection string always arrives as text. *)
Theorem parse_connection_str_shape
    (connection_str : string) (m : gmap string pyval) (k : string) (v : pyval) :
  parse_connection_str connection_str = Ok m ->
  m !! k = Some v ->
  Py.strip k = k /\ exists s, v = VStr s.
Proof.
  unfold parse_connection_str. intros Hc.
  apply (cs_comprehension_shape (Py.split ";" connection_str) ∅ m); [|exact Hc].
  intros k' v'. by rewrite lookup_empty.
Qed.

Lemma parse_connection_str_shape_witness :
  Py.strip "port" = "port" /\ exists s, VStr "9000" = VStr s.
Proof.
  apply (parse_connection_str_shape " host = h1; port =9000"
           (<["host" := VStr " h1"]> (<["port" := VStr "9000"]> ∅))
           "port" (VStr "9000")); reflexivity.
Defined.

(** X11: whatever follows a second [=] in a segment is dropped: the segment
    gives the same key and value as if it ended before that [=]. *)
Theorem cs_pair_ignores_after_second_eq (k v rest : string) :
  occurs "=" k = false -> occurs "=" v = false ->
  cs_pair (k ++ "=" ++ v ++ "=" ++ rest) = cs_pair (k ++ "=" ++ v) /\
  cs_pair (k ++ "=" ++ v ++ "=" ++ rest) = Ok (Py.strip k, VStr v).
Proof.
  intros Hk Hv. by rewrite cs_pair_two_eq, cs_pair_one_eq.
Qed.

Lemma cs_pair_ignores_after_second_eq_witness :
  cs_pair "password=a=b=c" = cs_pair "password=a" /\
  cs_pair "password=a=b=c" = Ok ("password", VStr "a").
Proof.
  apply (cs_pair_ignores_after_second_eq "password" "a" "b=c"); reflexivity.
Defined.

(** ** query, whatever the driver *)

(** X12: whenever [query] returns, the driver is connected and holds a
    session, the value is one table with the records of the backend in the
    order they were read, never a pair and never [None], and nothing was
    printed. *)
Theorem query_outcomes (self : SplunkDriver) (q : string) :
  (query self q).2 = [] /\
  match (query self q).1 with
  | Ok (ODataFrame rows) =>
      _connected self = true /\
      exists svc, service self = Some svc /\ rows = oneshot svc q
  | Ok _ => False
  | Raise _ => True
  end.
Proof.
  split; [apply query_never_warns|].
  unfold query. destruct (_connected self); [|done].
  destruct (service self) as [svc|]; [|done].
  rewrite read_all_list. simpl. eauto.
Qed.

(** ** Drivers and class state that a history can produce *)

Lemma connect_keeps_session_link
    (client_connect : gmap string pyval -> connect_outcome)
    defaults self cs kw :
  (_connected self = true <-> is_Some (service self)) ->
  let r := connect client_connect defaults self cs kw in
  _connected (driver r) = true <-> is_Some (service (driver r)).
Proof.
  intros Hinv. unfold connect.
  destruct (supplied cs kw) as [new|e]; [|done].
  destruct (coerce_params (new ∪ defaults)) as [final|e]; [|done].
  destruct (check_kwargs final required_args) as [[]|[]]; try done.
  destruct (client_connect (arg_dict_of final)); simpl; done.
Qed.

Lemma reachable_invariant defaults self :
  reachable defaults self ->
  (_connected self = true <-> is_Some (service self)) /\
  {["port"; "http_scheme"; "verify"]} ⊆ dom defaults.
Proof.
  induction 1 as [debug | defaults other debug _ [_ IHd]
                 | f defaults self cs kw _ [IHs IHd]
                 | f defaults self other cs kw _ [IHs _] _ [_ IHd]].
  - split; [|by vm_compute].
    simpl. split; [discriminate | by intros [? ?]].
  - split; [|done]. simpl. split; [discriminate | by intros [? ?]].
  - split; [by apply connect_keeps_session_link|].
    transitivity (dom defaults); [exact IHd | apply connect_dom_grows].
  - split; [done|].
    transitivity (dom defaults); [exact IHd | apply connect_dom_grows].
Qed.

(** X13: on a driver that a history of instantiations and [connect] calls
    can produce, [query] and the two accessors never fail on an absent
    session: the connected flag is set exactly when a session is held. *)
Theorem reachable_no_null_fault
    (defaults : gmap string pyval) (self : SplunkDriver) :
  reachable defaults self ->
  (_connected self = true <-> is_Some (service self)) /\
  (forall q, (query self q).1 <> Raise AttributeError) /\
  _saved_searches self <> Raise AttributeError /\
  _fired_alerts self <> Raise AttributeError.
Proof.
  intros [Hinv _]%reachable_invariant. split; [exact Hinv|].
  unfold query, _saved_searches, _fired_alerts, connected.
  destruct (_connected self); simpl.
  - destruct (proj1 Hinv eq_refl) as [svc ->].
    repeat split; discriminate.
  - repeat split; discriminate.
Qed.

Lemma reachable_no_null_fault_witness :
  _fired_alerts
    (driver (connect accept_all _CONNECT_DEFAULTS (new_driver None) None creds))
  <> Raise AttributeError.
Proof.
  apply (reachable_no_null_fault
           (class_defaults (connect accept_all _CONNECT_DEFAULTS (new_driver None)
                              None creds))
           (driver (connect accept_all _CONNECT_DEFAULTS (new_driver None)
                      None creds))).
  apply reach_connect, reach_init.
Defined.

(** X14: the class-level dictionary a history can produce always has the
    keys [port], [http_scheme] and [verify], so in no later call of
    [connect], whatever it supplies, does the lookup of [port] raise
    [KeyError]. *)
Theorem reachable_connect_no_key_error
    (defaults : gmap string pyval) (self : SplunkDriver) :
  reachable defaults self ->
  is_Some (defaults !! "port") /\ is_Some (defaults !! "http_scheme") /\
  is_Some (defaults !! "verify") /\
  forall new key, coerce_params (new ∪ defaults) <> Raise (KeyError key).
Proof.
  intros [_ Hdom]%reachable_invariant.
  assert (Hk : forall k, k ∈ ({["port"; "http_scheme"; "verify"]} : gset string) ->
                         is_Some (defaults !! k)).
  { intros k Hin. apply elem_of_dom. by apply Hdom. }
  split; [apply Hk; set_solver|]. split; [apply Hk; set_solver|].
  split; [apply Hk; set_solver|].
  intros new key Hc.
  unfold coerce_params, Py.getitem in Hc.
  destruct ((new ∪ defaults) !! "port") as [port|] eqn:Hp; simpl in Hc.
  - destruct port as [|b|n|s]; simpl in Hc; try discriminate.
    destruct (Py.int_of_str s); discriminate.
  - apply lookup_union_None in Hp as [_ Hp].
    destruct (Hk "port") as [v Hv]; [set_solver | congruence].
Qed.

Lemma reachable_connect_no_key_error_witness :
  is_Some (class_defaults
             (connect (fun _ => HTTPError "down") _CONNECT_DEFAULTS
                (new_driver None) (Some "host=h;app=search") ∅) !! "port").
Proof.
  apply (reachable_connect_no_key_error
           (class_defaults
              (connect (fun _ => HTTPError "down") _CONNECT_DEFAULTS
                 (new_driver None) (Some "host=h;app=search") ∅))
           (driver
              (connect (fun _ => HTTPError "down") _CONNECT_DEFAULTS
                 (new_driver None) (Some "host=h;app=search") ∅))).
  apply reach_connect, reach_init.
Defined.

(** ** service_queries *)

(** X15: [service_queries] has no connection guard: on a driver that a
    history can produce it raises [AttributeError] exactly when the driver
    is not connected, where the accessors raise their not-connected errors;
    once connected it returns a dictionary and the container name
    "SavedSearches". *)
Theorem service_queries_unguarded
    (defaults : gmap string pyval) (self : SplunkDriver) :
  reachable defaults self ->
  (service_queries self = Raise AttributeError <-> _connected self = false) /\
  (_connected self = true ->
   exists d, service_queries self = Ok (d, "SavedSearches")).
Proof.
  intros [Hinv _]%reachable_invariant. unfold service_queries.
  destruct (_connected self) eqn:Hc.
  - destruct (proj1 Hinv eq_refl) as [svc ->]. split; [done | eauto].
  - destruct (service self) as [svc|] eqn:Hs.
    + assert (false = true) by (apply Hinv; eauto). discriminate.
    + split; done.
Qed.

Lemma service_queries_unguarded_witness :
  service_queries (new_driver None) = Raise AttributeError <->
  _connected (new_driver None) = false.
Proof.
  apply (service_queries_unguarded _CONNECT_DEFAULTS (new_driver None)).
  apply reach_init.
Defined.

Lemma saved_dict_last_wins (l : list SavedSearch) (name q : string) :
  foldl (fun (d : gmap string string) search =>
           <[ss_name search := ss_search search]> d) ∅ l !! name
    = Some q <->
  exists l1 s l2, l = (l1 ++ s :: l2)%list /\ ss_name s = name /\
                  ss_search s = q /\ name ∉ map ss_name l2.
Proof.
  induction l as [|x l IH] using rev_ind.
  - simpl. rewrite lookup_empty. split; [discriminate|].
    intros (l1 & s & l2 & Hl & _). by destruct l1.
  - rewrite foldl_app. simpl.
    destruct (decide (ss_name x = name)) as [Hx|Hx].
    + rewrite Hx, lookup_insert_eq. split.
      * intros [= <-]. exists l, x, []. repeat split; try done. apply not_elem_of_nil.
      * intros (l1 & s & l2 & Hl & Hn & Hq & Hnot).
        destruct l2 as [|y l2 _] using rev_ind.
        -- apply app_inj_tail in Hl as [_ <-]. by rewrite Hq.
        -- exfalso. apply Hnot.
           rewrite app_comm_cons, app_assoc in Hl.
           apply app_inj_tail in Hl as [_ <-].
           rewrite map_app. apply elem_of_app. right. rewrite <- Hx. by left.
    + rewrite lookup_insert_ne by done. rewrite IH. split.
      * intros (l1 & s & l2 & -> & Hn & Hq & Hnot).
        exists l1, s, (l2 ++ [x])%list. repeat split; try done.
        -- by rewrite <- app_assoc.
        -- rewrite map_app. intros [?|Hin]%elem_of_app; [done|].
           apply list_elem_of_singleton in Hin. congruence.
      * intros (l1 & s & l2 & Hl & Hn & Hq & Hnot).
        destruct l2 as [|y l2 _] using rev_ind.
        -- apply app_inj_tail in Hl as [_ <-]. congruence.
        -- rewrite app_comm_cons, app_assoc in Hl.
           apply app_inj_tail in Hl as [-> <-].
           exists l1, s, l2. repeat split; try done.
           intros Hin. apply Hnot. rewrite map_app. apply elem_of_app. by left.
Qed.

(** X16: the dictionary of [service_queries] maps a name to the query of the
    last saved search of that name: where two saved searches share a name,
    the earlier one is lost, while the saved-searches table keeps a row for
    each. *)
Theorem service_queries_last_wins
    (self : SplunkDriver) (svc : Service) (name q : string) :
  service self = Some svc ->
  exists d,
    service_queries self = Ok (d, "SavedSearches") /\
    (d !! name = Some q <->
     exists l1 s l2, saved_searches svc = (l1 ++ s :: l2)%list /\
                     ss_name s = name /\ ss_search s = q /\
                     name ∉ map ss_name l2) /\
    (_connected self = true ->
     exists t, _saved_searches self = Ok t /\
               length (col_name t) = length (saved_searches svc) /\
               length (col_other t) = length (saved_searches svc)).
Proof.
  intros Hs. unfold service_queries, _saved_searches, connected. rewrite Hs.
  eexists. split; [reflexivity|]. split; [apply saved_dict_last_wins|].
  intros ->. simpl. eexists. split; [reflexivity|]. simpl.
  by rewrite !length_map.
Qed.

Lemma service_queries_last_wins_witness :
  let svc := {| oneshot := fun _ => [];
                saved_searches := [ {| ss_name := "errors"; ss_search := "search error" |};
                                    {| ss_name := "errors"; ss_search := "search fatal" |} ];
                fired_alerts := [] |} in
  let self := {| service := Some svc; _loaded := true; _connected := true;
                 _debug := VBool false |} in
  exists d, service_queries self = Ok (d, "SavedSearches") /\
            d !! "errors" = Some "search fatal".
Proof.
  destruct (service_queries_last_wins
              {| service := Some {| oneshot := fun _ => [];
                   saved_searches := [ {| ss_name := "errors"; ss_search := "search error" |};
                                       {| ss_name := "errors"; ss_search := "search fatal" |} ];
                   fired_alerts := [] |};
                 _loaded := true; _connected := true; _debug := VBool false |}
              _ "errors" "search fatal" eq_refl) as (d & Hd & Hl & _).
  exists d. split; [exact Hd|]. apply Hl.
  exists [ {| ss_name := "errors"; ss_search := "search error" |} ],
         {| ss_name := "errors"; ss_search := "search fatal" |}, [].
  repeat split. apply not_elem_of_nil.
Defined.

(** ** The list formatter, continued *)

Lemma quoted_no_comma x :
  occurs "," (Py.str x) = false -> occurs "," (quoted x) = false.
Proof.
  intros Hx. unfold quoted.
  change (occurs "," (String dquote (Py.str x ++ String dquote "")))
    with (Ascii.eqb dquote "," || occurs "," (Py.str x ++ String dquote "")).
  rewrite occurs_app, Hx. reflexivity.
Qed.

Lemma join_app sep (l1 l2 : list string) :
  l1 <> [] -> l2 <> [] ->
  Py.join sep (l1 ++ l2) = Py.join sep l1 ++ sep ++ Py.join sep l2.
Proof.
  intros H1 H2. induction l1 as [|x [|y l1] IH]; [done| |].
  - destruct l2 as [|z l2]; [done|]. reflexivity.
  - change (Py.join sep ((x :: y :: l1) ++ l2))
      with (x ++ sep ++ Py.join sep ((y :: l1) ++ l2)).
    rewrite IH by done. rewrite join_cons.
    rewrite !str_app_assoc_r. reflexivity.
Qed.

(** X17: when no item contains a comma, splitting the formatted list on
    commas gives back the quoted items, one for one and in order; the empty
    list is formatted as the empty string. *)
Theorem format_list_split (param_list : list pyval) :
  param_list <> [] ->
  Forall (fun x => occurs "," (Py.str x) = false) param_list ->
  Py.split "," (_format_list param_list) = map quoted param_list /\
  length (Py.split "," (_format_list param_list)) = length param_list /\
  _format_list [] = "".
Proof.
  intros Hne Hall.
  assert (Hs : Py.split "," (_format_list param_list) = map quoted param_list).
  { unfold _format_list. apply (split_join "," (map quoted param_list)).
    - by destruct param_list.
    - apply Forall_map. eapply Forall_impl; [exact Hall|].
      intros x Hx. by apply quoted_no_comma. }
  split; [exact Hs|]. split; [|reflexivity].
  by rewrite Hs, length_map.
Qed.

Lemma format_list_split_witness :
  Py.split "," (_format_list [VStr "a"; VInt 7; VNone]) =
  [quoted (VStr "a"); quoted (VInt 7); quoted VNone].
Proof.
  apply (format_list_split [VStr "a"; VInt 7; VNone]).
  - discriminate.
  - repeat constructor.
Defined.

(** X18: the formatter sees its items only through their string form: an
    integer, a boolean or [None] is rendered exactly like the string that
    spells it, so 1 and "1" cannot be told apart in the output. *)
Theorem format_list_erases_types (param_list : list pyval) :
  _format_list param_list =
  _format_list (map (fun x => VStr (Py.str x)) param_list) /\
  _format_list [VInt 1; VBool true; VNone] =
  _format_list [VStr "1"; VStr "True"; VStr "None"].
Proof.
  split; [|reflexivity].
  unfold _format_list. f_equal. rewrite map_map. reflexivity.
Qed.

(** X19: formatting the concatenation of two non-empty lists is formatting
    each and joining the two results with a comma. *)
Theorem format_list_app (l1 l2 : list pyval) :
  l1 <> [] -> l2 <> [] ->
  _format_list (l1 ++ l2) = _format_list l1 ++ "," ++ _format_list l2.
Proof.
  intros H1 H2. unfold _format_list. rewrite map_app.
  apply join_app; by destruct l1, l2.
Qed.

Lemma format_list_app_witness :
  _format_list ([VStr "a"] ++ [VStr "b"; VStr "c"]) =
  _format_list [VStr "a"] ++ "," ++ _format_list [VStr "b"; VStr "c"].
Proof.
  apply (format_list_app [VStr "a"] [VStr "b"; VStr "c"]); discriminate.
Defined.

(** ** Repeating a call *)

Lemma coerce_params_intro (m : gmap string pyval) port p :
  m !! "port" = Some port -> Py.int port = Ok p ->
  coerce_params m =
  Ok (<["verify" := VBool (coerce_verify (m !! "verify"))]> (<["port" := VInt p]> m)).
Proof.
  intros Hp Hi. unfold coerce_params, Py.getitem. rewrite Hp. simpl.
  rewrite Hi. simpl. by rewrite lookup_insert_ne.
Qed.

Lemma coerce_params_fails (m m' : gmap string pyval) e :
  coerce_params m = Raise e -> m' !! "port" = m !! "port" ->
  coerce_params m' = Raise e.
Proof.
  unfold coerce_params, Py.getitem. intros Hc ->.
  destruct (m !! "port") as [port|]; simpl in *; [|done].
  destruct (Py.int port); simpl in *; [discriminate | done].
Qed.

Lemma union_absorb (new defaults : gmap string pyval) :
  new ∪ (new ∪ defaults) = new ∪ defaults.
Proof. by rewrite (assoc_L (∪)), (idemp_L (∪)). Qed.

(** X20: repeating a call of [connect] with the same arguments, on any
    driver and with any session factory, leaves the class-level dictionary
    exactly as the first call left it. *)
Theorem connect_twice_same_class_defaults
    (client_connect client_connect' : gmap string pyval -> connect_outcome)
    (defaults : gmap string pyval) (self self' : SplunkDriver)
    (cs : option string) (kw : gmap string pyval) :
  let r := connect client_connect defaults self cs kw in
  class_defaults (connect client_connect' (class_defaults r) self' cs kw) =
  class_defaults r.
Proof.
  intros r.
  destruct (supplied cs kw) as [new|e] eqn:Hs.
  2: { subst r. unfold connect. by rewrite !Hs. }
  destruct (connect_class_cases client_connect defaults self cs kw new Hs)
    as [[Hr [e He]] | (final & Hc & Hr)]; fold r in Hr; rewrite Hr.
  - destruct (connect_class_cases client_connect' (new ∪ defaults) self' cs kw new Hs)
      as [[-> _] | (final & Hc & _)].
    + apply union_absorb.
    + rewrite union_absorb in Hc. congruence.
  - destruct (connect_class_cases client_connect' final self' cs kw new Hs)
      as [[_ [e He]] | (final2 & Hc2 & ->)].
    + exfalso.
      apply coerce_params_ok in Hc as (port & p & Hp & Hi & ->).
      destruct (new !! "port") as [pv|] eqn:Hn.
      * rewrite (coerce_params_intro _ pv p) in He; [discriminate| |].
        -- by apply lookup_union_Some_l.
        -- apply (lookup_union_Some_l _ defaults) in Hn. congruence.
      * rewrite (coerce_params_intro _ (VInt p) p) in He; [discriminate| |done].
        rewrite lookup_union_r by done.
        rewrite lookup_insert_ne by discriminate. apply lookup_insert_eq.
    + apply coerce_params_ok in Hc as (port & p & Hp & Hi & ->).
      apply coerce_params_ok in Hc2 as (port2 & p2 & Hp2 & Hi2 & ->).
      set (m := new ∪ defaults) in *.
      set (b := coerce_verify (m !! "verify")) in *.
      set (final := <["verify" := VBool b]> (<["port" := VInt p]> m)) in *.
      assert (Hpp : p2 = p).
      { destruct (new !! "port") as [pv|] eqn:Hn.
        - rewrite (lookup_union_Some_l _ _ _ _ Hn) in Hp2.
          subst m. rewrite (lookup_union_Some_l _ _ _ _ Hn) in Hp. congruence.
        - rewrite lookup_union_r in Hp2 by done. subst final.
          rewrite lookup_insert_ne in Hp2 by discriminate.
          rewrite lookup_insert_eq in Hp2. injection Hp2 as <-.
          simpl in Hi2. congruence. }
      assert (Hbb : coerce_verify ((new ∪ final) !! "verify") = b).
      { destruct (new !! "verify") as [v|] eqn:Hn.
        - rewrite (lookup_union_Some_l _ _ _ _ Hn). subst b m.
          by rewrite (lookup_union_Some_l _ _ _ _ Hn).
        - rewrite lookup_union_r by done. subst final.
          by rewrite lookup_insert_eq. }
      rewrite Hbb, Hpp. apply map_eq. intros k.
      destruct (decide (k = "verify")) as [->|Hv].
      { subst final. by rewrite !lookup_insert_eq. }
      rewrite lookup_insert_ne by done.
      destruct (decide (k = "port")) as [->|Hk].
      { subst final. rewrite lookup_insert_eq.
        rewrite lookup_insert_ne by discriminate. by rewrite lookup_insert_eq. }
      rewrite lookup_insert_ne by done. subst final.
      rewrite !(lookup_insert_ne _ "verify") by done.
      rewrite !(lookup_insert_ne _ "port") by done.
      destruct (new !! k) as [v|] eqn:Hn.
      * rewrite (lookup_union_Some_l _ _ _ _ Hn). subst m.
        by rewrite (lookup_union_Some_l _ _ _ _ Hn).
      * rewrite lookup_union_r by done.
        rewrite !(lookup_insert_ne _ "verify") by done.
        by rewrite !(lookup_insert_ne _ "port") by done.
Qed.

(** ** Connection string and named parameters *)

Lemma cs_comprehension_nonempty items acc m :
  cs_comprehension items acc = Ok m -> items <> [] \/ acc <> ∅ -> m <> ∅.
Proof.
  revert acc. induction items as [|seg items IH]; intros acc; simpl.
  - intros [= <-] [?|?]; done.
  - destruct (cs_pair seg) as [kv|e]; simpl; [|discriminate].
    intros Hc _. apply (IH _ Hc). right. apply insert_non_empty.
Qed.

(** X21: a non-empty connection string that parses, and none of whose keys
    is the name of a parameter of [connect] itself ([connection_str],
    [self]), has the effect of the call with its parsed pairs as named
    parameters: same outcome, same driver, same class-level dictionary, same
    output; the named parameters given beside the string play no part. *)
Theorem connect_string_as_kwargs
    (client_connect : gmap string pyval -> connect_outcome)
    (defaults : gmap string pyval) (self : SplunkDriver)
    (connection_str : string) (kw new : gmap string pyval) :
  connection_str <> "" ->
  parse_connection_str connection_str = Ok new ->
  new !! "connection_str" = None ->
  new !! "self" = None ->
  new <> ∅ /\
  connect client_connect defaults self (Some connection_str) kw =
  connect client_connect defaults self None new.
Proof.
  intros Hne Hp _ _.
  assert (Hnew : new <> ∅).
  { apply (cs_comprehension_nonempty (Py.split ";" connection_str) ∅ new Hp).
    left. apply split_nonempty. }
  split; [exact Hnew|].
  unfold connect, supplied.
  destruct connection_str as [|c s]; [done|]. simpl. rewrite Hp.
  destruct (decide (new = ∅)); done.
Qed.

Lemma connect_string_as_kwargs_witness :
  connect accept_all _CONNECT_DEFAULTS (new_driver None)
    (Some "host=h;username=u;password=p") (<["port" := VInt 1]> ∅) =
  connect accept_all _CONNECT_DEFAULTS (new_driver None) None creds.
Proof.
  apply (connect_string_as_kwargs accept_all _CONNECT_DEFAULTS (new_driver None)
           "host=h;username=u;password=p" (<["port" := VInt 1]> ∅) creds).
  - discriminate.
  - reflexivity.
  - reflexivity.
  - reflexivity.
Defined.
